(** * qbin document engine: identifier generator and store/request paths

    A shallow embedding of [names.go] (the slug generator) and [model.go]
    ([Store] and [Request]) of the qbin backend, with the properties of
    the engine stated over it.

    Go strings are byte strings: they are modelled by [string], one
    [ascii] per byte.  Go's [int] values that occur here (the retry
    counter, the loop index, the view count) stay far from the 64-bit
    bounds and are modelled by [Z].  Go errors are modelled by their
    message ([err.Error()]), [nil] by [None]. *)

From Stdlib Require Import List String Ascii ZArith Lia Bool Arith.
From Equations Require Import Equations.
Import ListNotations.

Local Open Scope string_scope.

(** ** Go's [strings] package, the part the engine uses *)

Definition error := string.

(** [strings.HasPrefix(s, prefix)]. *)
Fixpoint strings_HasPrefix (s prefix : string) : bool :=
  match prefix, s with
  | EmptyString, _ => true
  | String _ _, EmptyString => false
  | String p prefix', String c s' => Ascii.eqb c p && strings_HasPrefix s' prefix'
  end.

(** [s[n:]] for [n <= len(s)]. *)
Fixpoint string_drop (n : nat) (s : string) : string :=
  match n, s with
  | O, _ => s
  | S _, EmptyString => EmptyString
  | S n', String _ s' => string_drop n' s'
  end.

(** [strings.TrimPrefix(s, prefix)]. *)
Definition strings_TrimPrefix (s prefix : string) : string :=
  if strings_HasPrefix s prefix then string_drop (String.length prefix) s else s.

(** [strings.Contains(s, substr)]. *)
Fixpoint strings_Contains (s substr : string) : bool :=
  strings_HasPrefix s substr ||
  match s with
  | EmptyString => false
  | String _ s' => strings_Contains s' substr
  end.

(** [strings.Replace(s, old, new, -1)] for a non-empty [old]: the
    non-overlapping occurrences of [old] are replaced from left to right.
    [skip] counts the bytes of a matched occurrence still to be dropped.
    (The engine only calls it with the old strings "\r\n" and "\r".) *)
Fixpoint replace_from (skip : nat) (s old new : string) : string :=
  match s with
  | EmptyString => EmptyString
  | String c s' =>
      match skip with
      | S k => replace_from k s' old new
      | O =>
          if strings_HasPrefix s old
          then new ++ replace_from (String.length old - 1) s' old new
          else String c (replace_from 0 s' old new)
      end
  end.

Definition strings_Replace (s old new : string) : string :=
  replace_from 0 s old new.

(** Membership of a byte in a cutset. *)
Fixpoint in_cutset (c : ascii) (cutset : string) : bool :=
  match cutset with
  | EmptyString => false
  | String d cutset' => Ascii.eqb c d || in_cutset c cutset'
  end.

(** [strings.TrimLeft], [strings.TrimRight] and [strings.Trim] for a
    cutset of single-byte characters. *)
Fixpoint strings_TrimLeft (s cutset : string) : string :=
  match s with
  | EmptyString => EmptyString
  | String c s' => if in_cutset c cutset then strings_TrimLeft s' cutset else s
  end.

Fixpoint strings_TrimRight (s cutset : string) : string :=
  match s with
  | EmptyString => EmptyString
  | String c s' =>
      match strings_TrimRight s' cutset with
      | EmptyString => if in_cutset c cutset then EmptyString else String c EmptyString
      | r => String c r
      end
  end.

Definition strings_Trim (s cutset : string) : string :=
  strings_TrimLeft (strings_TrimRight s cutset) cutset.

(** [strings.Split(s, "")] on single-byte text: one string per byte. *)
Fixpoint strings_Split_bytes (s : string) : list string :=
  match s with
  | EmptyString => []
  | String c s' => String c EmptyString :: strings_Split_bytes s'
  end.

(** Carriage return, line feed and the null byte. *)
Definition CR : ascii := Ascii.ascii_of_nat 13.
Definition LF : ascii := Ascii.ascii_of_nat 10.
Definition NUL : ascii := Ascii.zero.
Definition str1 (c : ascii) : string := String c EmptyString.

(** ** names.go: the identifier generator *)

(** What a Go call does: it returns, or it panics (the process dies). *)
Inductive outcome (A : Type) : Type :=
| Returned (a : A)
| Panicked (e : option error).
Arguments Returned {A} a.
Arguments Panicked {A} e.

(** The randomness source [rand.Reader] as the sequence of its readings:
    the reading number [k] either fails with an error or yields a raw
    value.  The position in the sequence is threaded through the calls. *)
Inductive reading : Type :=
| Fails (e : error)
| Yields (v : nat).

Definition Source := nat -> reading.

Definition fails (r : reading) : bool :=
  match r with Fails _ => true | Yields _ => false end.

Inductive draw : Type :=
| DrawPanic
| DrawErr (e : error)
| DrawOk (i : nat).

(** [rand.Int(rand.Reader, big.NewInt(max))]: panics when [max <= 0]
    (before the source is read), otherwise reads the source once and gives
    an error or a value in [0, max). *)
Definition rand_Int (src : Source) (pos : nat) (max : nat) : draw * nat :=
  match max with
  | O => (DrawPanic, pos)
  | S _ =>
      match src pos with
      | Fails e => (DrawErr e, S pos)
      | Yields v => (DrawOk (v mod max), S pos)
      end
  end.

(** [var characters = strings.Split("abcdefghijklmnopqrstuvwxyz0123456789", "")] *)
Definition characters : list string :=
  strings_Split_bytes "abcdefghijklmnopqrstuvwxyz0123456789".

(** The attempts [randomWord] may still make when entered with [try]. *)
Definition attempts_left (try : Z) : nat := Z.to_nat (11 - try).

(** [func randomWord(array []string, try int, err error) string].
    The recursion on [try + 1] is bounded by the test [try > 10]. *)
Equations? randomWord (src : Source) (pos : nat) (array : list string)
    (try : Z) (err : option error) : outcome string * nat
    by wf (attempts_left try) lt :=
  randomWord src pos array try err with Z_gt_le_dec try 10 := {
    | left _ := (Panicked err, pos);
    | right _ with rand_Int src pos (List.length array) := {
        | (DrawPanic, pos') :=
            (Panicked (Some "crypto/rand: argument to Int is <= 0"), pos');
        | (DrawErr e, pos') := randomWord src pos' array (try + 1) (Some e);
        | (DrawOk i, pos') :=
            match nth_error array i with
            | Some word => (Returned word, pos')
            | None => (Panicked (Some "index out of range"), pos')
            end } }.
Proof. unfold attempts_left. lia. Qed.

(** One iteration of the loop of [GenerateName], for the index [i] and
    the text built so far. *)
Definition GenerateName_body (src : Source) (words : list string) (i : Z)
    (text : string) (pos : nat) : outcome string * nat :=
  let '(r, pos') :=
    if (i <? 2)%Z && (0 <? List.length words)%nat
    then randomWord src pos words 0 None
    else randomWord src pos characters 0 None in
  match r with
  | Panicked e => (Panicked e, pos')
  | Returned word =>
      if (i <? 3)%Z && (0 <? List.length words)%nat
      then (Returned (text ++ "-" ++ word), pos')
      else (Returned (text ++ word), pos')
  end.

(** [for i := 0; i < 6; i++ { ... }], with [n] iterations left. *)
Fixpoint GenerateName_for (src : Source) (words : list string) (n : nat)
    (i : Z) (text : string) (pos : nat) : outcome string * nat :=
  match n with
  | O => (Returned text, pos)
  | S n' =>
      match GenerateName_body src words i text pos with
      | (Panicked e, pos') => (Panicked e, pos')
      | (Returned text', pos') =>
          GenerateName_for src words n' (i + 1) text' pos'
      end
  end.

(** [func GenerateName() string]; the package variable [words] is an
    argument. *)
Definition GenerateName (src : Source) (words : list string) (pos : nat)
    : outcome string * nat :=
  match GenerateName_for src words 6 0 "" pos with
  | (Panicked e, pos') => (Panicked e, pos')
  | (Returned text, pos') => (Returned (strings_TrimPrefix text "-"), pos')
  end.

(** ** Go's [time] package, the part the engine uses *)

(** A [time.Time] is modelled by its instant, in nanoseconds since the
    Unix epoch; the location, which the engine always normalises with
    [UTC()] before formatting, is not represented. *)
Definition Time := Z.

Definition nanos_per_second : Z := 1000000000.

(** [time.Time{}]: January 1, year 1, 00:00:00 UTC. *)
Definition time_zero : Time := (-62135596800 * nanos_per_second)%Z.

(** [time.Unix(sec, nsec)]. *)
Definition time_Unix (sec nsec : Z) : Time := (sec * nanos_per_second + nsec)%Z.

(** [t.Before(u)]. *)
Definition time_Before (t u : Time) : bool := (t <? u)%Z.

(** [t.Round(time.Second)]: to the nearest second, halfway values up. *)
Definition time_Round_Second (t : Time) : Time :=
  let r := (t mod nanos_per_second)%Z in
  if (r + r <? nanos_per_second)%Z then (t - r)%Z
  else (t + nanos_per_second - r)%Z.

(** ** model.go: documents and the table they are stored in *)

Record Document : Type := mkDocument {
  ID : string;
  Content : string;
  Syntax : string;
  Upload : Time;
  Expiration : Time;
  Views : Z;
  Custom : string
}.

(** [Document{}] *)
Definition Document_zero : Document :=
  mkDocument "" "" "" time_zero time_zero 0 "".

Definition set_ID (d : Document) (v : string) : Document :=
  mkDocument v (Content d) (Syntax d) (Upload d) (Expiration d) (Views d) (Custom d).
Definition set_Content (d : Document) (v : string) : Document :=
  mkDocument (ID d) v (Syntax d) (Upload d) (Expiration d) (Views d) (Custom d).
Definition set_Syntax (d : Document) (v : string) : Document :=
  mkDocument (ID d) (Content d) v (Upload d) (Expiration d) (Views d) (Custom d).
Definition set_Upload (d : Document) (v : Time) : Document :=
  mkDocument (ID d) (Content d) (Syntax d) v (Expiration d) (Views d) (Custom d).
Definition set_Expiration (d : Document) (v : Time) : Document :=
  mkDocument (ID d) (Content d) (Syntax d) (Upload d) v (Views d) (Custom d).
Definition set_Views (d : Document) (v : Z) : Document :=
  mkDocument (ID d) (Content d) (Syntax d) (Upload d) (Expiration d) v (Custom d).
Definition set_Custom (d : Document) (v : string) : Document :=
  mkDocument (ID d) (Content d) (Syntax d) (Upload d) (Expiration d) (Views d) v.

(** A row of the table [documents], with the columns in the order of the
    INSERT statement.  The two timestamp columns are read back through
    [sql.NullString]: [None] is SQL's NULL. *)
Record Row : Type := mkRow {
  row_id : string;
  row_content : string;
  row_custom : string;
  row_syntax : string;
  row_upload : option string;
  row_expiration : option string;
  row_views : Z
}.

(** The table keeps its rows in insertion order; the engine declares no
    uniqueness constraint on [id]. *)
Definition Table := list Row.

(** The statements the engine hands to [db.Exec], with their arguments:
    - [INSERT INTO documents (id, content, custom, syntax, upload,
       expiration, views) VALUES (?, ?, ?, ?, ?, ?, ?)]
    - [UPDATE documents SET views = views + 1 WHERE id = ?]
    - [DELETE FROM documents WHERE id = ?] *)
Inductive Stmt : Type :=
| Insert (r : Row)
| IncrementViews (key : string)
| Delete (key : string).

Definition bump_views (r : Row) : Row :=
  mkRow (row_id r) (row_content r) (row_custom r) (row_syntax r)
        (row_upload r) (row_expiration r) (row_views r + 1).

Definition apply_stmt (s : Stmt) (t : Table) : Table :=
  match s with
  | Insert r => (t ++ [r])%list
  | IncrementViews key =>
      map (fun r => if String.eqb (row_id r) key then bump_views r else r) t
  | Delete key => filter (fun r => negb (String.eqb (row_id r) key)) t
  end.

(** [SELECT ... FROM documents WHERE id = ?] through [QueryRow]: the first
    matching row. *)
Definition select_row (key : string) (t : Table) : option Row :=
  find (fun r => String.eqb (row_id r) key) t.

(** ** The collaborators of the engine

    Everything [Store] and [Request] call that lives outside model.go:
    library functions (SHA-256 and hex, scrypt, the calendar conversions
    of [time]), functions of other files of the package ([encrypt],
    [decrypt], [Highlight], [EscapeHTML], [StripHTML], [FilterSpam],
    [GenerateSafeName]), the failures of the database and the scheduling
    of the goroutine [Request] starts.  Functions that return
    [(value, error)] in Go return a pair here. *)
Record Env : Type := mkEnv {
  (** [hex.EncodeToString(sha256.Sum256([]byte(s))[:])] *)
  sha256_hex : string -> string;
  (** [scrypt.Key(password, salt, 16384, 8, 1, 24)] *)
  scrypt_Key : string -> string -> string * option error;
  encrypt : string -> string -> string * option error;
  decrypt : string -> string -> string * option error;
  Highlight : string -> string -> string * option error;
  EscapeHTML : string -> string;
  StripHTML : string -> string;
  (** [FilterSpam(document, &contentHighlighted)]: a parameter, with the
      interface [check(doc, renderedContent) -> error-or-nil]. *)
  FilterSpam : Document -> string -> option error;
  (** [GenerateSafeName()]: a parameter; it checks the store for the
      names it generates, so it reads the table. *)
  GenerateSafeName : Table -> string * option error;
  (** [time.Parse("2006-01-02 15:04:05", s)] *)
  time_Parse : string -> Time * option error;
  (** [t.UTC().Format("2006-01-02 15:04:05")] *)
  time_Format : Time -> string;
  (** The error, if any, the database answers a query for a key with. *)
  query_fault : Table -> string -> option error;
  (** The error, if any, the database answers a statement with. *)
  exec_fault : Table -> Stmt -> option error;
  (** Whether a goroutine runs as soon as it is started ([true]) or after
      the function that started it has returned ([false]). *)
  go_eager : bool
}.

(** ** The state the engine runs in *)

Inductive Event : Type :=
| EvGenerateSafeName
| EvHighlight (content syntax : string)
| EvEscapeHTML (content : string)
| EvFilterSpam (content : string)
| EvStripHTML (content : string)
| EvScrypt (password salt : string)
| EvEncrypt (plaintext key : string)
| EvDecrypt (ciphertext key : string)
| EvQueryRow (key : string)
| EvExec (s : Stmt)
| EvGo (s : Stmt)
| EvLog (level : string).

(** The table, the statements of goroutines that have not run yet, and
    the calls made so far, oldest first. *)
Record World : Type := mkWorld {
  db : Table;
  pending : list Stmt;
  trace : list Event
}.

(** State passing: a computation maps a world to its result and the next
    world. *)
Definition M (A : Type) : Type := World -> A * World.

Definition ret {A : Type} (a : A) : M A := fun w => (a, w).

Definition bind {A B : Type} (m : M A) (k : A -> M B) : M B :=
  fun w => let '(a, w') := m w in k a w'.

Declare Scope engine_scope.
Delimit Scope engine_scope with engine.
Notation "x <- m ;; k" := (bind m (fun x => k))
  (at level 61, m at next level, right associativity) : engine_scope.
Notation "m ;;; k" := (bind m (fun _ => k))
  (at level 61, right associativity) : engine_scope.
Local Open Scope engine_scope.

Definition emit (e : Event) : M unit :=
  fun w => (tt, mkWorld (db w) (pending w) (trace w ++ [e])%list).

Definition Log (level : string) : M unit := emit (EvLog level).

Definition when_err (err : option error) (m : M unit) : M unit :=
  match err with Some _ => m | None => ret tt end.

Section Engine.

Variable env : Env.

(** *** Calls to the collaborators, each recorded in the trace *)

Definition call_GenerateSafeName : M (string * option error) :=
  fun w => let '(_, w') := emit EvGenerateSafeName w in
           (GenerateSafeName env (db w), w').

Definition call_Highlight (content syntax : string)
    : M (string * option error) :=
  emit (EvHighlight content syntax) ;;; ret (Highlight env content syntax).

Definition call_EscapeHTML (content : string) : M string :=
  emit (EvEscapeHTML content) ;;; ret (EscapeHTML env content).

Definition call_StripHTML (content : string) : M string :=
  emit (EvStripHTML content) ;;; ret (StripHTML env content).

Definition call_FilterSpam (document : Document) (content : string)
    : M (option error) :=
  emit (EvFilterSpam content) ;;; ret (FilterSpam env document content).

Definition call_scrypt (password salt : string) : M (string * option error) :=
  emit (EvScrypt password salt) ;;; ret (scrypt_Key env password salt).

Definition call_encrypt (plaintext key : string) : M (string * option error) :=
  emit (EvEncrypt plaintext key) ;;; ret (encrypt env plaintext key).

Definition call_decrypt (ciphertext key : string) : M (string * option error) :=
  emit (EvDecrypt ciphertext key) ;;; ret (decrypt env ciphertext key).

(** *** The database handle [db] *)

(** [db.QueryRow("SELECT content, custom, syntax, upload, expiration,
    views FROM documents WHERE id = ?", key).Scan(...)] *)
Definition db_QueryRow (key : string) : M (Row + error) :=
  fun w =>
    let '(_, w') := emit (EvQueryRow key) w in
    match query_fault env (db w) key with
    | Some e => (inr e, w')
    | None =>
        match select_row key (db w) with
        | Some r => (inl r, w')
        | None => (inr "sql: no rows in result set", w')
        end
    end.

(** What a statement does to the table: nothing when the database
    answers it with an error. *)
Definition run_stmt (s : Stmt) (t : Table) : Table * option error :=
  match exec_fault env t s with
  | Some e => (t, Some e)
  | None => (apply_stmt s t, None)
  end.

(** [_, err = db.Exec(s)] *)
Definition db_Exec (s : Stmt) : M (option error) :=
  fun w =>
    let '(t, err) := run_stmt s (db w) in
    (err, mkWorld t (pending w) (trace w ++ [EvExec s])%list).

(** [go db.Exec(s)]: the result is dropped. *)
Definition go_db_Exec (s : Stmt) : M unit :=
  fun w =>
    if go_eager env
    then (tt, mkWorld (fst (run_stmt s (db w))) (pending w)
                      (trace w ++ [EvGo s])%list)
    else (tt, mkWorld (db w) (pending w ++ [s])%list
                      (trace w ++ [EvGo s])%list).

(** The goroutines still pending run to completion. *)
Definition settle (w : World) : World :=
  mkWorld (fold_left (fun t s => fst (run_stmt s t)) (pending w) (db w))
          [] (trace w).

(** *** [func Store(document *Document) error]

    The document behind the pointer is returned with the error; [now]
    is what [time.Now()] answers. *)

(** The normalization of line 44. *)
Definition normalize_newlines (content : string) : string :=
  strings_Trim
    (strings_Replace (strings_Replace content (String CR (str1 LF)) (str1 LF))
                     (str1 CR) (str1 LF))
    (str1 LF)
  ++ str1 LF.

(** Lines 51 to 62: the rendering. *)
Definition Store_render (document : Document) : M (Document * string) :=
  if String.eqb (Custom document) "" then
    let document :=
      if String.eqb (Syntax document) "none"
      then set_Syntax document "" else document in
    h <- call_Highlight (Content document) (Syntax document) ;;
    let '(contentHighlighted, err) := h in
    when_err err (Log "warning") ;;;
    ret (document, contentHighlighted)
  else
    c <- call_EscapeHTML (Content document) ;;
    ret (document, c).

(** Lines 71 to 101: key derivation, encryption and the INSERT. *)
Definition Store_persist (document : Document) (contentHighlighted : string)
    : M (Document * option error) :=
  let expiration :=
    if Z.eqb (Expiration document) time_zero then None
    else Some (time_Format env (Expiration document)) in
  k <- call_scrypt (ID document) (time_Format env (Upload document)) ;;
  let '(key, err) := k in
  when_err err (Log "error") ;;;
  d <- call_encrypt contentHighlighted key ;;
  let '(data, err) := d in
  match err with
  | Some e => Log "error" ;;; ret (document, Some e)
  | None =>
      let databaseID := sha256_hex env (ID document) in
      err <- db_Exec (Insert (mkRow databaseID data (Custom document)
                                (Syntax document)
                                (Some (time_Format env (Upload document)))
                                expiration (Views document))) ;;
      match err with
      | Some e => ret (document, Some e)
      | None => ret (document, None)
      end
  end.

Definition Store (now : Time) (document : Document)
    : M (Document * option error) :=
  n <- call_GenerateSafeName ;;
  let '(name, err) := n in
  match err with
  | Some e => ret (document, Some e)
  | None =>
      let document := set_ID document name in
      let document := set_Upload document (time_Round_Second now) in
      let document :=
        set_Expiration document (time_Round_Second (Expiration document)) in
      let document :=
        set_Content document (normalize_newlines (Content document)) in
      if strings_Contains (Content document) (str1 NUL) then
        ret (document, Some "file contains 0x00 bytes")
      else
        r <- Store_render document ;;
        let '(document, contentHighlighted) := r in
        err <- call_FilterSpam document contentHighlighted ;;
        match err with
        | Some e =>
            Log "warning" ;;; ret (document, Some ("spam: " ++ e))
        | None => Store_persist document contentHighlighted
        end
  end.

(** *** [func Request(id string, raw bool) (Document, error)] *)

(** [s.String] of a [sql.NullString]. *)
Definition NullString_String (s : option string) : string :=
  match s with Some v => v | None => "" end.

(** Lines 158 to 161. *)
Definition Request_return (doc : Document) (raw : bool)
    : M (Document * option error) :=
  if raw then
    c <- call_StripHTML (Content doc) ;;
    ret (set_Content doc c, None)
  else ret (doc, None).

(** Lines 138 to 161: the expiration policy. *)
Definition Request_expiration (now : Time) (id : string) (raw : bool)
    (doc : Document) (expiration : option string)
    : M (Document * option error) :=
  match expiration with
  | None => Request_return doc raw
  | Some s =>
      let '(t, err) := time_Parse env s in
      let doc := set_Expiration doc t in
      if time_Before (Expiration doc) (time_Unix 0 1) then
        (if (Views doc >? 0)%Z then
           err <- db_Exec (Delete id) ;;
           when_err err (Log "error")
         else ret tt) ;;;
        Request_return doc raw
      else
        match err with
        | Some e => ret (Document_zero, Some e)
        | None =>
            if time_Before (Expiration doc) now
            then ret (Document_zero, Some "the document has expired")
            else Request_return doc raw
        end
  end.

(** The message [decrypt] fails with when the authentication tag does
    not match. *)
Definition auth_failed : error := "cipher: message authentication failed".

Definition Request (now : Time) (id : string) (raw : bool)
    : M (Document * option error) :=
  let doc := set_ID Document_zero id in
  let databaseID := sha256_hex env id in
  q <- db_QueryRow databaseID ;;
  match q with
  | inr err =>
      (if negb (String.eqb err "sql: no rows in result set")
       then Log "warning" else ret tt) ;;;
      ret (Document_zero, Some err)
  | inl row =>
      let doc := set_Content doc (row_content row) in
      let doc := set_Custom doc (row_custom row) in
      let doc := set_Syntax doc (row_syntax row) in
      let upload := row_upload row in
      let expiration := row_expiration row in
      let views := row_views row in
      go_db_Exec (IncrementViews databaseID) ;;;
      let doc := set_Views doc views in
      let doc :=
        set_Upload doc (fst (time_Parse env (NullString_String upload))) in
      k <- call_scrypt id (time_Format env (Upload doc)) ;;
      let '(key, err) := k in
      match err with
      | Some e => Log "error" ;;; ret (Document_zero, Some e)
      | None =>
          d <- call_decrypt (Content doc) key ;;
          let '(data, err) := d in
          match err with
          | Some e =>
              if negb (String.eqb e auth_failed
                       && negb (strings_Contains (Content doc) (str1 NUL)))
              then Log "error" ;;; ret (Document_zero, Some e)
              else Request_expiration now id raw doc expiration
          | None =>
              Request_expiration now id raw (set_Content doc data) expiration
          end
      end
  end.

End Engine.

(** ** Vocabulary of the properties *)

(** The lowercase-alphanumeric alphabet of [characters]. *)
Definition alnum (c : ascii) : bool :=
  in_cutset c "abcdefghijklmnopqrstuvwxyz0123456789".

Fixpoint all_alnum (s : string) : bool :=
  match s with
  | EmptyString => true
  | String c s' => alnum c && all_alnum s'
  end.

(** The readings of the source that yield a value, among the [n] readings
    from [pos] on. *)
Definition successes (src : Source) (pos n : nat) : nat :=
  List.length (filter (fun k => negb (fails (src k))) (seq pos n)).

(** [word-word-] followed by four alphanumeric characters, the two words
    from the word list. *)
Definition slug_two_words (words : list string) (text : string) : Prop :=
  exists w1 w2 suffix,
    In w1 words /\ In w2 words /\
    String.length suffix = 4%nat /\ all_alnum suffix = true /\
    text = w1 ++ "-" ++ w2 ++ "-" ++ suffix.

(** [word-word-word] followed by three alphanumeric characters, the three
    words from the word list. *)
Definition slug_three_words (words : list string) (text : string) : Prop :=
  exists w1 w2 w3 suffix,
    In w1 words /\ In w2 words /\ In w3 words /\
    String.length suffix = 3%nat /\ all_alnum suffix = true /\
    text = w1 ++ "-" ++ w2 ++ "-" ++ w3 ++ suffix.

(** The shape of the slug with three words of the list: six characters
    without hyphen for an empty list, [slug_three_words] otherwise. *)
Definition GenerateName_claimed_shape (src : Source) (words : list string)
    (pos : nat) : Prop :=
  match GenerateName src words pos with
  | (Returned text, _) =>
      (words = [] ->
       String.length text = 6%nat /\ all_alnum text = true /\
       strings_Contains text "-" = false) /\
      (words <> [] -> slug_three_words words text)
  | (Panicked _, _) => True
  end.

(** Every "\r\n" and every lone "\r" becomes "\n", in one pass over the
    text. *)
Fixpoint convert_line_endings (s : string) : string :=
  match s with
  | EmptyString => EmptyString
  | String c s' =>
      if Ascii.eqb c CR then
        match s' with
        | EmptyString => str1 LF
        | String d s'' =>
            if Ascii.eqb d LF then String LF (convert_line_endings s'')
            else String LF (convert_line_endings s')
        end
      else String c (convert_line_endings s')
  end.

(** [n] newlines. *)
Fixpoint newlines (n : nat) : string :=
  match n with
  | O => EmptyString
  | S n' => String LF (newlines n')
  end.

Definition first_byte (s : string) : option ascii :=
  match s with
  | EmptyString => None
  | String c _ => Some c
  end.

Fixpoint last_byte (s : string) : option ascii :=
  match s with
  | EmptyString => None
  | String c EmptyString => Some c
  | String _ s' => last_byte s'
  end.

(** ** A small environment to run the engine in

    Collaborators simple enough to evaluate by hand: the digest and the
    key are tagged copies of their input, the cipher prefixes the
    plaintext with the key and rejects a ciphertext without that prefix,
    rendering and stripping leave the text as it is, the spam filter lets
    everything pass, the database never fails, goroutines run after the
    function that started them.  The calendar knows two dates; like Go's
    [time.Parse], it answers anything else with the zero [Time] and an
    error. *)

Definition demo_Parse (s : string) : Time * option error :=
  if String.eqb s "1970-01-01 00:00:00" then (time_Unix 0 0, None)
  else if String.eqb s "2020-01-01 00:00:00" then (time_Unix 1577836800 0, None)
  else (time_zero, Some "parsing time: cannot parse").

Definition demo_Format (t : Time) : string :=
  if Z.eqb t (time_Unix 0 0) then "1970-01-01 00:00:00"
  else if Z.eqb t (time_Unix 1577836800 0) then "2020-01-01 00:00:00"
  else "0001-01-01 00:00:00".

Definition demo_encrypt (plaintext key : string) : string * option error :=
  ("[" ++ key ++ "]" ++ plaintext, None).

Definition demo_decrypt (ciphertext key : string) : string * option error :=
  if strings_HasPrefix ciphertext ("[" ++ key ++ "]")
  then (string_drop (String.length ("[" ++ key ++ "]")) ciphertext, None)
  else ("", Some "cipher: message authentication failed").

Definition demo_env : Env :=
  mkEnv (fun s => "sha256:" ++ s)
        (fun password salt => (password ++ "@" ++ salt, None))
        demo_encrypt
        demo_decrypt
        (fun content syntax => (content, None))
        (fun content => content)
        (fun content => content)
        (fun _ _ => None)
        (fun _ => ("corn-flake-ab12", None))
        demo_Parse
        demo_Format
        (fun _ _ => None)
        (fun _ _ => None)
        false.

(** The record of the document "abc", uploaded on 2020-01-01, with the
    given expiration column and view count. *)
Definition demo_row (expiration : option string) (views : Z) : Row :=
  mkRow "sha256:abc" "[abc@2020-01-01 00:00:00]hello" "" ""
        (Some "2020-01-01 00:00:00") expiration views.

Definition demo_world (expiration : option string) (views : Z) : World :=
  mkWorld [demo_row expiration views] [] [].

(** 2021-01-01 00:00:00 UTC. *)
Definition demo_now : Time := time_Unix 1609459200 0.

(** ** What a stored, readable record is

    The record [row] is what a query for [id] finds in the world [w], and
    its content decrypts to [data] under the key [key] derived from [id]
    and the stored upload time (the salt [salt]). *)
Definition salt_of (env : Env) (row : Row) : string :=
  time_Format env (fst (time_Parse env (NullString_String (row_upload row)))).

Definition fetches (env : Env) (w : World) (id : string) (row : Row) : Prop :=
  query_fault env (db w) (sha256_hex env id) = None /\
  select_row (sha256_hex env id) (db w) = Some row.

Definition decrypts (env : Env) (id : string) (row : Row) (key data : string)
    : Prop :=
  scrypt_Key env id (salt_of env row) = (key, None) /\
  decrypt env (row_content row) key = (data, None).

(** The document [Request] has assembled from [row] once the content is
    settled. *)
Definition doc_of_row (env : Env) (id : string) (row : Row) (content : string)
    : Document :=
  mkDocument id content (row_syntax row)
             (fst (time_Parse env (NullString_String (row_upload row))))
             time_zero (row_views row) (row_custom row).

(** The events of a strip, when [raw] asks for one. *)
Definition strip_events (raw : bool) (content : string) : list Event :=
  if raw then [EvStripHTML content] else [].

(** The content returned for the rendered content [content]. *)
Definition returned_content (env : Env) (raw : bool) (content : string)
    : string :=
  if raw then StripHTML env content else content.

(** The world [Request] has reached when it has fetched [row], started
    the view-count goroutine, derived [key] and called [decrypt]. *)
Definition after_fetch (env : Env) (w : World) (id : string) (row : Row)
    (key : string) : World :=
  let h := sha256_hex env id in
  mkWorld (if go_eager env
           then fst (match exec_fault env (db w) (IncrementViews h) with
                     | Some e => (db w, Some e)
                     | None => (apply_stmt (IncrementViews h) (db w), None)
                     end)
           else db w)
          (if go_eager env then pending w
           else (pending w ++ [IncrementViews h])%list)
          (trace w ++ [EvQueryRow h; EvGo (IncrementViews h);
                       EvScrypt id (salt_of env row);
                       EvDecrypt (row_content row) key])%list.

(** What [Request] returns for the document [doc]: stripped when [raw]. *)
Definition returned_doc (env : Env) (raw : bool) (doc : Document) : Document :=
  if raw then set_Content doc (StripHTML env (Content doc)) else doc.

(** A read of [id] in the world [w] returns without error and, once the
    goroutines have run, no record is left under the key of [id]. *)
Definition read_deletes_record (env : Env) (now : Time) (id : string)
    (raw : bool) (w : World) : Prop :=
  let res := Request env now id raw w in
  snd (fst res) = None /\
  select_row (sha256_hex env id) (db (settle env (snd res))) = None.

(** A record of "abc" from before encryption: the content is the
    rendered text itself. *)
Definition demo_legacy_world : World :=
  mkWorld [mkRow "sha256:abc" "hello" "" "" (Some "2020-01-01 00:00:00")
                 None 3] [] [].

(** A successful [Store] of [document] in [w] leaves one new record, with
    a view count of zero. *)
Definition Store_zeroes_views (env : Env) (now : Time) (document : Document)
    (w : World) : Prop :=
  let res := Store env now document w in
  snd (fst res) = None ->
  exists row, db (snd res) = (db w ++ [row])%list /\ row_views row = 0%Z.

(** The syntax hint [Store] keeps for a document. *)
Definition kept_syntax (document : Document) : string :=
  if String.eqb (Custom document) "" && String.eqb (Syntax document) "none"
  then "" else Syntax document.

(** ** More of Go's [strings] package

    [strings.ToLower] and [strings.TrimSpace] work on Unicode code
    points; they are modelled on single-byte (ASCII) text, where a code
    point is a byte.  The properties that use them say so with
    [is_ascii]. *)

Fixpoint is_ascii (s : string) : bool :=
  match s with
  | EmptyString => true
  | String c s' => (nat_of_ascii c <? 128)%nat && is_ascii s'
  end.

Definition is_upper (c : ascii) : bool :=
  (65 <=? nat_of_ascii c)%nat && (nat_of_ascii c <=? 90)%nat.

Definition byte_ToLower (c : ascii) : ascii :=
  if is_upper c then ascii_of_nat (nat_of_ascii c + 32) else c.

(** [strings.ToLower(s)] on ASCII text. *)
Fixpoint strings_ToLower (s : string) : string :=
  match s with
  | EmptyString => EmptyString
  | String c s' => String (byte_ToLower c) (strings_ToLower s')
  end.

(** The ASCII white space of Go: "\t\n\v\f\r ". *)
Definition ascii_space : string :=
  String (ascii_of_nat 9) (String (ascii_of_nat 10) (String (ascii_of_nat 11)
    (String (ascii_of_nat 12) (String (ascii_of_nat 13) " ")))).

(** [strings.TrimSpace(s)] on ASCII text. *)
Definition strings_TrimSpace (s : string) : string :=
  strings_Trim s ascii_space.

(** [s[:n]] for [n <= len(s)]. *)
Fixpoint string_take (n : nat) (s : string) : string :=
  match n, s with
  | O, _ => EmptyString
  | S _, EmptyString => EmptyString
  | S n', String c s' => String c (string_take n' s')
  end.

(** [strings.Index(s, substr)]: the first position where [substr]
    starts, [None] for Go's -1. *)
Fixpoint strings_Index (s substr : string) : option nat :=
  if strings_HasPrefix s substr then Some O
  else match s with
       | EmptyString => None
       | String _ s' => option_map S (strings_Index s' substr)
       end.

(** The loop of Go's [genSplit] for a non-empty separator: at most
    [limit] cuts, each at the first occurrence of [sep] in what is left;
    [sepSave] bytes of the separator stay with the piece before it. *)
Fixpoint genSplit (limit : nat) (s sep : string) (sepSave : nat)
    : list string :=
  match limit with
  | O => [s]
  | S limit' =>
      match strings_Index s sep with
      | None => [s]
      | Some m =>
          string_take (m + sepSave) s
          :: genSplit limit' (string_drop (m + String.length sep) s) sep sepSave
      end
  end.

(** [strings.Split(s, sep)]: as many cuts as there are separators, which
    is at most [len(s)]. *)
Definition strings_Split (s sep : string) : list string :=
  genSplit (String.length s) s sep 0.

(** [strings.SplitN(s, sep, n)] for [n > 0]: at most [n] pieces. *)
Definition strings_SplitN (s sep : string) (n : nat) : list string :=
  genSplit (n - 1) s sep 0.

(** [strings.SplitAfterN(s, sep, n)] for [n > 0]. *)
Definition strings_SplitAfterN (s sep : string) (n : nat) : list string :=
  genSplit (n - 1) s sep (String.length sep).

(** [strings.HasSuffix(s, suffix)] and [strings.TrimSuffix(s, suffix)]. *)
Definition strings_HasSuffix (s suffix : string) : bool :=
  (String.length suffix <=? String.length s)%nat &&
  String.eqb (string_drop (String.length s - String.length suffix) s) suffix.

Definition strings_TrimSuffix (s suffix : string) : string :=
  if strings_HasSuffix s suffix
  then string_take (String.length s - String.length suffix) s else s.

(** ** names.go: loading the word list *)

(** The body of the loop of [LoadWordsFile]: the line, trimmed and in
    lower case, is appended unless it is empty or a comment. *)
Definition LoadWordsFile_line (words : list string) (word : string)
    : list string :=
  let word := strings_ToLower (strings_TrimSpace word) in
  if (0 <? String.length word)%nat && negb (strings_HasPrefix word "#")
  then (words ++ [word])%list else words.

(** [func LoadWordsFile(filename string) error].  [read] is what
    [ioutil.ReadFile(filename)] answers; the package variable [words] is
    passed in and returned. *)
Definition LoadWordsFile (read : string * option error) (words : list string)
    : list string * option error :=
  let '(content, err) := read in
  match err with
  | None =>
      let source := strings_Split content (str1 LF) in
      let words := fold_left LoadWordsFile_line source [] in
      if (List.length words =? 0)%nat
      then (words, Some "file doesn't contain any words")
      else (words, err)
  | Some _ => (words, err)
  end.

Fixpoint all_bytes (p : ascii -> bool) (s : string) : bool :=
  match s with
  | EmptyString => true
  | String c s' => p c && all_bytes p s'
  end.

(** What [LoadWordsFile] lets into the word list: a non-empty word that
    is no comment, has no upper-case letter and no white space at either
    end. *)
Definition clean_word (w : string) : Prop :=
  w <> "" /\
  strings_HasPrefix w "#" = false /\
  all_bytes (fun c => negb (is_upper c)) w = true /\
  (forall c, first_byte w = Some c -> in_cutset c ascii_space = false) /\
  (forall c, last_byte w = Some c -> in_cutset c ascii_space = false).

(** The element of [array] the reading number [k] of the source selects. *)
Definition reading_value (r : reading) : nat :=
  match r with Yields v => v | Fails _ => O end.

Definition pick (array : list string) (src : Source) (k : nat) : string :=
  nth (reading_value (src k) mod List.length array) array "".

(** ** Vocabulary of the further properties of the engine *)

(** The content [Store] encrypts for the document it has prepared. *)
Definition rendered_content (env : Env) (doc : Document) : string :=
  if String.eqb (Custom doc) ""
  then fst (Highlight env (Content doc) (Syntax doc))
  else EscapeHTML env (Content doc).

(** The document behind the pointer when [Store] is past the rendering,
    for the generated [name]. *)
Definition stored_document (now : Time) (name : string) (document : Document)
    : Document :=
  mkDocument name (normalize_newlines (Content document))
             (kept_syntax document) (time_Round_Second now)
             (time_Round_Second (Expiration document)) (Views document)
             (Custom document).

(** The record [Store] inserts for that document and the ciphertext
    [data]. *)
Definition stored_row (env : Env) (doc : Document) (data : string) : Row :=
  mkRow (sha256_hex env (ID doc)) data (Custom doc) (Syntax doc)
        (Some (time_Format env (Upload doc)))
        (if Z.eqb (Expiration doc) time_zero then None
         else Some (time_Format env (Expiration doc)))
        (Views doc).

(** Calls that derive a key, encrypt, or execute a statement. *)
Definition crypto_or_statement (ev : Event) : bool :=
  match ev with
  | EvScrypt _ _ | EvEncrypt _ _ | EvDecrypt _ _ | EvExec _ | EvGo _ => true
  | _ => false
  end.

(** The small environment with a key derivation that fails as
    [scrypt.Key] does, with no key and an error, and a cipher that, like
    AES, refuses the empty key. *)
Definition demo_env_bad_kdf : Env :=
  mkEnv (sha256_hex demo_env)
        (fun password salt => ("", Some "scrypt: parameters are invalid"))
        (fun plaintext key =>
           if String.eqb key ""
           then ("", Some "crypto/aes: invalid key size 0")
           else demo_encrypt plaintext key)
        demo_decrypt (Highlight demo_env) (EscapeHTML demo_env)
        (StripHTML demo_env) (FilterSpam demo_env) (GenerateSafeName demo_env)
        demo_Parse demo_Format (query_fault demo_env) (exec_fault demo_env)
        false.

(** ** The HTTP front end: its configuration (package qbinHTTP) *)

Module qbinHTTP.

Record Configuration : Type := mkConfiguration {
  ListenHTTP : string;
  ListenHTTPS : string;
  FrontendPath : string;
  Root : string;
  path : string;
  domain : string;
  CertWhitelist : list string;
  ForceRoot : bool;
  Hsts : string
}.

(** [func initializeConfig(initialConfig Configuration)]: the package
    variable [config] it assigns is returned.  [abs] is [filepath.Abs],
    whose failure makes the function panic. *)
Definition initializeConfig (abs : string -> string * option error)
    (initialConfig : Configuration) : outcome Configuration :=
  let config := initialConfig in
  let '(frontendPath, err) := abs (FrontendPath config) in
  match err with
  | Some e => Panicked (Some e)
  | None =>
      let root := strings_TrimSuffix (Root config) "/" in
      let rootParts := strings_SplitAfterN root "/" 4 in
      let path0 := if (3 <? List.length rootParts)%nat
                   then nth 3 rootParts "" else "" in
      let path1 :=
        strings_TrimSuffix ("/" ++ strings_TrimPrefix path0 "/") "/" in
      let rootParts := strings_SplitN (strings_ToLower root) "://" 2 in
      let domain1 :=
        hd "" (strings_Split (nth (List.length rootParts - 1) rootParts "")
                             "/") in
      Returned (mkConfiguration (ListenHTTP config) (ListenHTTPS config)
                  frontendPath root path1 domain1 (CertWhitelist config)
                  (ForceRoot config) (Hsts config))
  end.

(** The [whitelist] map of [listenHTTPS]: [true] for the listed hosts,
    the zero value [false] for every other key. *)
Definition whitelist (config : Configuration) (host : string) : bool :=
  existsb (String.eqb host) (CertWhitelist config).

(** The [HostPolicy] of the certificate manager in [listenHTTPS]. *)
Definition HostPolicy (config : Configuration) (host : string)
    : option error :=
  if negb (String.eqb host (domain config))
     && negb (Bool.eqb (whitelist config host) true)
  then Some ("TLS host not configured: " ++ host)
  else None.

End qbinHTTP.

(** A byte string without the byte [c]. *)
Definition without (c : ascii) (s : string) : bool :=
  all_bytes (fun d => negb (Ascii.eqb d c)) s.

(** A configuration and a [filepath.Abs] to run [initializeConfig] with. *)
Definition demo_config (root : string) : qbinHTTP.Configuration :=
  qbinHTTP.mkConfiguration ":80" "none" "frontend" root "" ""
    ["cdn.example.org"] false "".

Definition demo_abs (file : string) : string * option error :=
  ("/srv/qbin/" ++ file, None).

(** * Properties *)

(** ** The identifier generator *)

Example GenerateName_no_words :
  GenerateName (fun k => Yields k) [] 0 = (Returned "abcdef", 6%nat).
Proof. reflexivity. Qed.

Example GenerateName_with_words :
  GenerateName (fun k => Yields k) ["corn"; "flake"] 0
  = (Returned "corn-flake-cdef", 6%nat).
Proof. reflexivity. Qed.

Lemma randomWord_step src pos array try err :
  randomWord src pos array try err =
  if (try >? 10)%Z then (Panicked err, pos)
  else match rand_Int src pos (List.length array) with
       | (DrawPanic, pos') =>
           (Panicked (Some "crypto/rand: argument to Int is <= 0"), pos')
       | (DrawErr e, pos') => randomWord src pos' array (try + 1) (Some e)
       | (DrawOk i, pos') =>
           match nth_error array i with
           | Some word => (Returned word, pos')
           | None => (Panicked (Some "index out of range"), pos')
           end
       end.
Proof.
  simp randomWord.
  destruct (Z_gt_le_dec try 10) as [g | l]; simpl.
  - replace (try >? 10)%Z with true by (symmetry; apply Z.gtb_lt; lia).
    reflexivity.
  - replace (try >? 10)%Z with false
      by (symmetry; apply not_true_is_false; rewrite Z.gtb_lt; lia).
    destruct (rand_Int src pos (List.length array)) as [[ | e | i] pos'];
      reflexivity.
Qed.

Lemma randomWord_inv src array (m : nat) : forall pos try err r pos',
  attempts_left try = m ->
  randomWord src pos array try err = (r, pos') ->
  match r with
  | Returned word =>
      exists n v, pos' = (pos + S n)%nat /\ (S n <= m)%nat /\
        (forall k, (k < n)%nat -> fails (src (pos + k)%nat) = true) /\
        src (pos + n)%nat = Yields v /\
        nth_error array (v mod List.length array) = Some word
  | Panicked _ =>
      (array = [] /\ pos' = pos) \/
      (pos' = (pos + m)%nat /\
       forall k, (k < m)%nat -> fails (src (pos + k)%nat) = true)
  end.
Proof.
  induction m as [| m IH]; intros pos try err r pos' Hm H;
    rewrite randomWord_step in H.
  - replace (try >? 10)%Z with true in H
      by (symmetry; apply Z.gtb_lt; unfold attempts_left in Hm; lia).
    inversion H; subst. right. split; [lia | intros; lia].
  - replace (try >? 10)%Z with false in H
      by (symmetry; apply not_true_is_false; rewrite Z.gtb_lt;
          unfold attempts_left in Hm; lia).
    unfold rand_Int in H.
    destruct array as [| a array'] eqn:Ea.
    + simpl in H. inversion H; subst. left. split; reflexivity.
    + rewrite <- Ea in *. 
      assert (Hlen : List.length array <> 0%nat) by (subst; simpl; lia).
      destruct (List.length array) as [| len'] eqn:El; [lia |].
      destruct (src pos) as [e | v] eqn:Es.
      * assert (Hm' : attempts_left (try + 1) = m)
          by (unfold attempts_left in *; lia).
        specialize (IH (S pos) (try + 1)%Z (Some e) r pos' Hm' H).
        destruct r as [word | e'].
        -- destruct IH as (n & v & Hp & Hn & Hf & Hs & Hw).
           exists (S n), v. repeat split.
           ++ lia.
           ++ lia.
           ++ intros k Hk. destruct k as [| k].
              ** rewrite Nat.add_0_r, Es. reflexivity.
              ** replace (pos + S k)%nat with (S pos + k)%nat by lia.
                 apply Hf. lia.
           ++ replace (pos + S n)%nat with (S pos + n)%nat by lia. exact Hs.
           ++ exact Hw.
        -- destruct IH as [[Hnil _] | [Hp Hf]]; [subst; discriminate |].
           right. split; [lia |].
           intros k Hk. destruct k as [| k].
           ++ rewrite Nat.add_0_r, Es. reflexivity.
           ++ replace (pos + S k)%nat with (S pos + k)%nat by lia.
              apply Hf. lia.
      * destruct (nth_error array (v mod S len')) as [word |] eqn:En.
        -- inversion H; subst r pos'.
           exists 0%nat, v. repeat split.
           ++ lia.
           ++ lia.
           ++ intros k Hk. lia.
           ++ rewrite Nat.add_0_r. exact Es.
           ++ exact En.
        -- exfalso. apply nth_error_None in En.
           pose proof (Nat.mod_upper_bound v (S len') ltac:(lia)). lia.
Qed.

(** C9: [randomWord] is total.  Entered with [try = 0] it reads the
    source at most 11 times, that is, it retries at most 10 times; it
    panics, instead of returning, when every one of these readings failed
    (or when the array is empty); and what it returns is an element of
    the array at a reading that succeeded, so it is not empty when no
    element of the array is. *)
Theorem randomWord_bounded_retry : forall src pos array try err,
  let res := randomWord src pos array try err in
  attempts_left 0 = 11%nat /\
  (pos <= snd res <= pos + attempts_left try)%nat /\
  (snd res - pos - 1 <= attempts_left try - 1)%nat /\
  match fst res with
  | Returned word =>
      In word array /\
      ((forall w, In w array -> w <> "") -> word <> "") /\
      exists n v, snd res = (pos + S n)%nat /\ src (pos + n)%nat = Yields v
  | Panicked _ =>
      array = [] \/
      (snd res = (pos + attempts_left try)%nat /\
       forall k, (k < attempts_left try)%nat ->
                 fails (src (pos + k)%nat) = true)
  end.
Proof.
  intros src pos array try err res.
  destruct res as [r pos'] eqn:E. subst res.
  pose proof (randomWord_inv src array (attempts_left try) pos try err r pos'
                eq_refl E) as H.
  simpl. split; [reflexivity |].
  destruct r as [word | e].
  - destruct H as (n & v & Hp & Hn & Hf & Hs & Hw).
    apply nth_error_In in Hw.
    repeat split; try lia.
    + exact Hw.
    + intros Hne. apply Hne. exact Hw.
    + exists n, v. split; assumption.
  - destruct H as [[Hnil Hp] | [Hp Hf]].
    + repeat split; try lia. left. exact Hnil.
    + repeat split; try lia. right. split; assumption.
Qed.

Lemma successes_app src pos a b :
  successes src pos (a + b) =
  (successes src pos a + successes src (pos + a) b)%nat.
Proof.
  unfold successes. rewrite seq_app, filter_app, length_app. reflexivity.
Qed.

Lemma successes_all_fail src pos n :
  (forall k, (k < n)%nat -> fails (src (pos + k)%nat) = true) ->
  successes src pos n = 0%nat.
Proof.
  revert pos. induction n as [| n IH]; intros pos H; [reflexivity |].
  unfold successes in *. simpl.
  pose proof (H 0%nat ltac:(lia)) as H0. rewrite Nat.add_0_r in H0.
  rewrite H0. simpl. apply IH.
  intros k Hk. replace (S pos + k)%nat with (pos + S k)%nat by lia.
  apply H. lia.
Qed.

(** One draw from a non-empty array: an element of the array and exactly
    one successful reading, or eleven failed readings and a panic. *)
Lemma randomWord_draw src pos array r pos' :
  array <> [] ->
  randomWord src pos array 0 None = (r, pos') ->
  match r with
  | Returned word =>
      In word array /\ (pos <= pos')%nat /\
      successes src pos (pos' - pos) = 1%nat
  | Panicked _ =>
      pos' = (pos + 11)%nat /\
      forall j, (j < 11)%nat -> fails (src (pos + j)%nat) = true
  end.
Proof.
  intros Hne E.
  pose proof (randomWord_inv src array 11 pos 0%Z None r pos' eq_refl E) as H.
  destruct r as [word | e].
  - destruct H as (n & v & Hp & Hn & Hf & Hs & Hw).
    apply nth_error_In in Hw. repeat split; [exact Hw | lia |].
    replace (pos' - pos)%nat with (n + 1)%nat by lia.
    rewrite successes_app, (successes_all_fail _ _ _ Hf).
    unfold successes. simpl. rewrite Hs. reflexivity.
  - destruct H as [[Hnil _] | H]; [contradiction | exact H].
Qed.

Lemma characters_single w :
  In w characters -> exists c, w = str1 c /\ alnum c = true.
Proof.
  unfold characters. simpl.
  intros H.
  repeat (destruct H as [H | H];
          [subst w; eexists; split; [reflexivity | reflexivity] |]).
  contradiction.
Qed.

Lemma alnum_not_hyphen c :
  alnum c = true -> Ascii.eqb c "-"%char = false.
Proof.
  intros H. destruct (Ascii.eqb c "-"%char) eqn:E; [| reflexivity].
  apply Ascii.eqb_eq in E. subst c. discriminate H.
Qed.

Lemma characters_nonempty : characters <> [].
Proof. discriminate. Qed.

Lemma append_assoc_s (a b c : string) : (a ++ b) ++ c = a ++ (b ++ c).
Proof. induction a as [| x a IH]; simpl; [reflexivity | rewrite IH; reflexivity]. Qed.

Lemma successes_split src pos mid pos' :
  (pos <= mid)%nat -> (mid <= pos')%nat ->
  successes src pos (pos' - pos) =
  (successes src pos (mid - pos) + successes src mid (pos' - mid))%nat.
Proof.
  intros H1 H2.
  replace (pos' - pos)%nat with ((mid - pos) + (pos' - mid))%nat by lia.
  rewrite successes_app. replace (pos + (mid - pos))%nat with mid by lia.
  reflexivity.
Qed.

Lemma HasPrefix_empty s : strings_HasPrefix s "" = true.
Proof. destruct s; reflexivity. Qed.

Lemma GenerateName_body_inv src words i text pos r pos' :
  GenerateName_body src words i text pos = (r, pos') ->
  match r with
  | Returned text' =>
      (pos <= pos')%nat /\ successes src pos (pos' - pos) = 1%nat /\
      exists word,
        (if (i <? 2)%Z && (0 <? List.length words)%nat
         then In word words
         else exists c, word = str1 c /\ alnum c = true) /\
        text' = if (i <? 3)%Z && (0 <? List.length words)%nat
                then text ++ "-" ++ word else text ++ word
  | Panicked _ =>
      pos' = (pos + 11)%nat /\
      forall j, (j < 11)%nat -> fails (src (pos + j)%nat) = true
  end.
Proof.
  unfold GenerateName_body. intros H.
  destruct ((i <? 2)%Z && (0 <? List.length words)%nat) eqn:Ew.
  - assert (Hne : words <> []).
    { intros ->. rewrite andb_false_r in Ew. discriminate. }
    destruct (randomWord src pos words 0 None) as [[word | e] p] eqn:E;
      pose proof (randomWord_draw _ _ _ _ _ Hne E) as D.
    + destruct D as (Hin & Hle & Hs).
      destruct ((i <? 3)%Z && (0 <? List.length words)%nat);
        inversion H; subst; repeat split; try assumption;
        exists word; split; auto.
    + inversion H; subst. exact D.
  - destruct (randomWord src pos characters 0 None) as [[word | e] p] eqn:E;
      pose proof (randomWord_draw _ _ _ _ _ characters_nonempty E) as D.
    + destruct D as (Hin & Hle & Hs). apply characters_single in Hin.
      destruct ((i <? 3)%Z && (0 <? List.length words)%nat);
        inversion H; subst; repeat split; try assumption;
        exists word; split; auto.
    + inversion H; subst. exact D.
Qed.

(** C4, as the code has it: [GenerateName] is total; when it returns,
    exactly six readings of the source succeeded, one per draw; with an
    empty word list the slug is six lowercase-alphanumeric characters and
    has no hyphen; with a non-empty word list it is two words of the list,
    each followed by a hyphen, and then four alphanumeric characters with
    no further separator.  It panics only after eleven failed readings in
    a row. *)
Theorem GenerateName_slug : forall src words pos,
  match GenerateName src words pos with
  | (Returned text, pos') =>
      (pos <= pos')%nat /\ successes src pos (pos' - pos) = 6%nat /\
      (words = [] ->
       String.length text = 6%nat /\ all_alnum text = true /\
       strings_Contains text "-" = false) /\
      (words <> [] -> slug_two_words words text)
  | (Panicked _, pos') =>
      exists k, (pos <= k)%nat /\ pos' = (k + 11)%nat /\
        forall j, (j < 11)%nat -> fails (src (k + j)%nat) = true
  end.
Proof.
  intros src words pos. unfold GenerateName. simpl.
  destruct (GenerateName_body src words 0 "" pos) as [[t0 | e] p0] eqn:E0;
    apply GenerateName_body_inv in E0;
    [| exists pos; destruct E0; repeat split; [lia | lia | assumption]].
  destruct E0 as (L0 & S0 & w0 & W0 & T0).
  destruct (GenerateName_body src words 1 t0 p0) as [[t1 | e] p1] eqn:E1;
    apply GenerateName_body_inv in E1;
    [| exists p0; destruct E1; repeat split; [lia | lia | assumption]].
  destruct E1 as (L1 & S1 & w1 & W1 & T1).
  destruct (GenerateName_body src words 2 t1 p1) as [[t2 | e] p2] eqn:E2;
    apply GenerateName_body_inv in E2;
    [| exists p1; destruct E2; repeat split; [lia | lia | assumption]].
  destruct E2 as (L2 & S2 & w2 & W2 & T2).
  destruct (GenerateName_body src words 3 t2 p2) as [[t3 | e] p3] eqn:E3;
    apply GenerateName_body_inv in E3;
    [| exists p2; destruct E3; repeat split; [lia | lia | assumption]].
  destruct E3 as (L3 & S3 & w3 & W3 & T3).
  destruct (GenerateName_body src words 4 t3 p3) as [[t4 | e] p4] eqn:E4;
    apply GenerateName_body_inv in E4;
    [| exists p3; destruct E4; repeat split; [lia | lia | assumption]].
  destruct E4 as (L4 & S4 & w4 & W4 & T4).
  destruct (GenerateName_body src words 5 t4 p4) as [[t5 | e] p5] eqn:E5;
    apply GenerateName_body_inv in E5;
    [| exists p4; destruct E5; repeat split; [lia | lia | assumption]].
  destruct E5 as (L5 & S5 & w5 & W5 & T5).
  split; [lia |]. split.
  { rewrite (successes_split src pos p0 p5), S0 by lia.
    rewrite (successes_split src p0 p1 p5), S1 by lia.
    rewrite (successes_split src p1 p2 p5), S2 by lia.
    rewrite (successes_split src p2 p3 p5), S3 by lia.
    rewrite (successes_split src p3 p4 p5), S4, S5 by lia.
    reflexivity. }
  change (2 <? 2)%Z with false in W2. change (3 <? 2)%Z with false in W3.
  change (4 <? 2)%Z with false in W4. change (5 <? 2)%Z with false in W5.
  change (3 <? 3)%Z with false in T3. change (4 <? 3)%Z with false in T4.
  change (5 <? 3)%Z with false in T5.
  simpl in W2, W3, W4, W5, T3, T4, T5.
  destruct W2 as (c2 & -> & A2). destruct W3 as (c3 & -> & A3).
  destruct W4 as (c4 & -> & A4). destruct W5 as (c5 & -> & A5).
  destruct words as [| w ws].
  - simpl in *. destruct W0 as (c0 & -> & A0). destruct W1 as (c1 & -> & A1).
    subst. simpl.
    split; [| intros H; contradiction]. intros _.
    unfold strings_TrimPrefix. simpl.
    rewrite (alnum_not_hyphen c0 A0). simpl.
    rewrite A0, A1, A2, A3, A4, A5.
    rewrite (alnum_not_hyphen c0 A0), (alnum_not_hyphen c1 A1),
      (alnum_not_hyphen c2 A2), (alnum_not_hyphen c3 A3),
      (alnum_not_hyphen c4 A4), (alnum_not_hyphen c5 A5).
    repeat split; reflexivity.
  - change (0 <? 2)%Z with true in W0. change (1 <? 2)%Z with true in W1.
    change (0 <? 3)%Z with true in T0. change (1 <? 3)%Z with true in T1.
    change (2 <? 3)%Z with true in T2.
    simpl in W0, W1, T0, T1, T2.
    split; [intros H; discriminate H |]. intros _.
    subst. unfold strings_TrimPrefix. simpl.
    rewrite !append_assoc_s. simpl.
    exists w0, w1, (String c2 (String c3 (String c4 (str1 c5)))).
    repeat split; try assumption.
    + simpl. rewrite A2, A3, A4, A5. reflexivity.
    + rewrite HasPrefix_empty. reflexivity.
Qed.

(** C4, as claimed, at the word list [["corn"]] and a source that always
    yields 0: the slug is ["corn-corn-aaaa"], whose third segment is not
    a word of the list. *)
Lemma GenerateName_third_segment_not_a_word :
  ~ GenerateName_claimed_shape (fun _ => Yields 0) ["corn"] 0.
Proof.
  unfold GenerateName_claimed_shape.
  change (GenerateName (fun _ => Yields 0) ["corn"] 0)
    with (Returned "corn-corn-aaaa", 6%nat).
  intros [_ H]. specialize (H ltac:(discriminate)).
  destruct H as (w1 & w2 & w3 & s & H1 & H2 & H3 & _ & _ & E).
  destruct H1 as [<- | []]. destruct H2 as [<- | []]. destruct H3 as [<- | []].
  simpl in E. discriminate E.
Qed.

(** ** The normalization of the content *)

Ltac step_replace :=
  unfold strings_Replace, str1;
  cbn [replace_from strings_HasPrefix String.length Nat.sub append andb];
  rewrite ?HasPrefix_empty, ?andb_true_r.

Lemma replace_crlf_cons c s :
  strings_Replace (String c s) (String CR (str1 LF)) (str1 LF) =
  match s with
  | EmptyString => str1 c
  | String d s' =>
      if Ascii.eqb c CR && Ascii.eqb d LF
      then String LF (strings_Replace s' (String CR (str1 LF)) (str1 LF))
      else String c (strings_Replace s (String CR (str1 LF)) (str1 LF))
  end.
Proof.
  step_replace.
  destruct s as [| d s'].
  - cbn [strings_HasPrefix replace_from]. rewrite andb_false_r. reflexivity.
  - cbn [strings_HasPrefix]. rewrite ?HasPrefix_empty, ?andb_true_r.
    destruct (Ascii.eqb c CR && Ascii.eqb d LF); reflexivity.
Qed.

Lemma replace_cr_cons c s :
  strings_Replace (String c s) (str1 CR) (str1 LF) =
  String (if Ascii.eqb c CR then LF else c)
         (strings_Replace s (str1 CR) (str1 LF)).
Proof.
  step_replace. destruct (Ascii.eqb c CR); reflexivity.
Qed.

Lemma LF_not_CR : Ascii.eqb LF CR = false.
Proof. reflexivity. Qed.

Lemma two_replaces_convert_bounded (n : nat) : forall s,
  (String.length s <= n)%nat ->
  strings_Replace (strings_Replace s (String CR (str1 LF)) (str1 LF))
                  (str1 CR) (str1 LF)
  = convert_line_endings s.
Proof.
  induction n as [| n IH]; intros s Hn.
  - destruct s; [reflexivity | simpl in Hn; lia].
  - destruct s as [| c s]; [reflexivity |].
    simpl in Hn. rewrite replace_crlf_cons. cbn [convert_line_endings].
    destruct s as [| d s'].
    + unfold str1. rewrite replace_cr_cons.
      destruct (Ascii.eqb c CR); reflexivity.
    + simpl in Hn. destruct (Ascii.eqb c CR) eqn:Ec;
        destruct (Ascii.eqb d LF) eqn:Ed; cbn [andb];
        rewrite replace_cr_cons, ?LF_not_CR, ?Ec.
      * rewrite (IH s') by lia. reflexivity.
      * rewrite (IH (String d s')) by (simpl; lia). reflexivity.
      * rewrite (IH (String d s')) by (simpl; lia). reflexivity.
      * rewrite (IH (String d s')) by (simpl; lia). reflexivity.
Qed.

Lemma two_replaces_convert s :
  strings_Replace (strings_Replace s (String CR (str1 LF)) (str1 LF))
                  (str1 CR) (str1 LF)
  = convert_line_endings s.
Proof. apply (two_replaces_convert_bounded (String.length s)). lia. Qed.

Lemma in_cutset_LF c : in_cutset c (str1 LF) = Ascii.eqb c LF.
Proof. unfold str1. cbn [in_cutset]. apply orb_false_r. Qed.

Lemma TrimRight_newlines s :
  exists j,
    s = strings_TrimRight s (str1 LF) ++ newlines j /\
    last_byte (strings_TrimRight s (str1 LF)) <> Some LF.
Proof.
  induction s as [| c s' IH].
  - exists 0%nat. split; [reflexivity | discriminate].
  - destruct IH as (j & Hs & Hl).
    cbn [strings_TrimRight]. rewrite in_cutset_LF.
    destruct (strings_TrimRight s' (str1 LF)) as [| d r] eqn:Er.
    + destruct (Ascii.eqb c LF) eqn:Ec.
      * apply Ascii.eqb_eq in Ec. subst c.
        exists (S j). split; [| discriminate].
        simpl in *. rewrite <- Hs. reflexivity.
      * exists j. split.
        -- simpl in *. rewrite <- Hs. reflexivity.
        -- simpl. intros H. inversion H; subst c.
           rewrite Ascii.eqb_refl in Ec. discriminate.
    + exists j. split.
      * rewrite Hs at 1. reflexivity.
      * exact Hl.
Qed.

Lemma TrimLeft_newlines s :
  exists i,
    s = newlines i ++ strings_TrimLeft s (str1 LF) /\
    first_byte (strings_TrimLeft s (str1 LF)) <> Some LF /\
    (last_byte s <> Some LF ->
     last_byte (strings_TrimLeft s (str1 LF)) <> Some LF).
Proof.
  induction s as [| c s' IH].
  - exists 0%nat. repeat split; try discriminate; auto.
  - destruct IH as (i & Hs & Hf & Hl).
    cbn [strings_TrimLeft]. rewrite in_cutset_LF.
    destruct (Ascii.eqb c LF) eqn:Ec.
    + apply Ascii.eqb_eq in Ec. subst c.
      exists (S i). repeat split.
      * simpl. rewrite <- Hs. reflexivity.
      * exact Hf.
      * intros H. apply Hl. destruct s' as [| d s'']; [| exact H].
        exfalso. apply H. reflexivity.
    + exists 0%nat. repeat split.
      * simpl. intros H. inversion H; subst c.
        rewrite Ascii.eqb_refl in Ec. discriminate.
      * auto.
Qed.

(** The expression of line 44 of model.go: its value is the text with
    every "\r\n" and every lone "\r" turned into "\n", without the
    newlines it then starts and ends with, followed by one newline;
    "line1\r\nline2\r" becomes "line1\nline2\n". *)
Lemma normalize_newlines_spec : forall content,
  (exists body i j,
     normalize_newlines content = body ++ str1 LF /\
     convert_line_endings content = newlines i ++ body ++ newlines j /\
     first_byte body <> Some LF /\ last_byte body <> Some LF) /\
  normalize_newlines ("line1" ++ String CR (String LF "line2") ++ str1 CR)
  = "line1" ++ String LF "line2" ++ str1 LF.
Proof.
  intros content. split; [| reflexivity].
  unfold normalize_newlines, strings_Trim.
  rewrite two_replaces_convert.
  destruct (TrimRight_newlines (convert_line_endings content))
    as (j & Hr & Hlast).
  destruct (TrimLeft_newlines
              (strings_TrimRight (convert_line_endings content) (str1 LF)))
    as (i & Hl & Hfirst & Hkeep).
  exists (strings_TrimLeft
            (strings_TrimRight (convert_line_endings content) (str1 LF))
            (str1 LF)), i, j.
  repeat split.
  - rewrite <- append_assoc_s, <- Hl. exact Hr.
  - exact Hfirst.
  - apply Hkeep. exact Hlast.
Qed.

(** ** The engine *)

Example demo_request_plain :
  fst (Request demo_env demo_now "abc" false (demo_world None 0))
  = (mkDocument "abc" "hello" "" (time_Unix 1577836800 0) time_zero 0 "", None).
Proof. reflexivity. Qed.

Example demo_store_then_request :
  let '(r, w) := Store demo_env (time_Unix 1577836800 0)
                   (mkDocument "" "hello" "" time_zero time_zero 0 "")
                   (mkWorld [] [] []) in
  snd r = None /\
  fst (Request demo_env demo_now "corn-flake-ab12" true w)
  = (mkDocument "corn-flake-ab12" ("hello" ++ str1 LF) ""
       (time_Unix 1577836800 0) time_zero 0 "", None).
Proof. vm_compute. split; reflexivity. Qed.

Ltac unfold_engine :=
  unfold Request, Request_expiration, Request_return, Store, Store_render,
    Store_persist, db_QueryRow, db_Exec, go_db_Exec, run_stmt,
    call_GenerateSafeName, call_Highlight, call_EscapeHTML, call_StripHTML,
    call_FilterSpam, call_scrypt, call_encrypt, call_decrypt, Log, when_err,
    emit, bind, ret in *.

Ltac flatten_trace :=
  repeat rewrite <- app_assoc; cbn [app].

(** [Request] up to the call of [decrypt]. *)
Lemma Request_after_fetch env now id raw w row key :
  fetches env w id row ->
  scrypt_Key env id (salt_of env row) = (key, None) ->
  Request env now id raw w =
  let w1 := after_fetch env w id row key in
  match decrypt env (row_content row) key with
  | (data, Some e) =>
      if negb (String.eqb e auth_failed
               && negb (strings_Contains (row_content row) (str1 NUL)))
      then ((Document_zero, Some e),
            mkWorld (db w1) (pending w1) (trace w1 ++ [EvLog "error"])%list)
      else Request_expiration env now id raw
             (doc_of_row env id row (row_content row)) (row_expiration row) w1
  | (data, None) =>
      Request_expiration env now id raw
        (doc_of_row env id row data) (row_expiration row) w1
  end.
Proof.
  intros [Hq Hs] Hk. unfold salt_of in Hk.
  unfold Request, db_QueryRow, go_db_Exec, call_scrypt,
    call_decrypt, Log, after_fetch, run_stmt, salt_of, doc_of_row,
    emit, bind, ret.
  cbn [db pending trace]. rewrite Hq, Hs.
  cbn [Content ID Upload set_Content set_Custom set_Syntax set_Views
       set_Upload set_ID Document_zero Views Custom Syntax Expiration].
  destruct (go_eager env); cbn [db pending trace fst snd];
    rewrite Hk; cbn [db pending trace fst snd];
    destruct (decrypt env (row_content row) key) as [data [e |]];
    try destruct (negb (String.eqb e auth_failed && _));
    cbv beta iota zeta delta [db pending trace]; flatten_trace;
    reflexivity.
Qed.

(** The volatile branch of the expiration policy. *)
Lemma Request_expiration_volatile env now id raw doc s w :
  time_Before (fst (time_Parse env s)) (time_Unix 0 1) = true ->
  Request_expiration env now id raw doc (Some s) w =
  let doc' := set_Expiration doc (fst (time_Parse env s)) in
  if (Views doc >? 0)%Z then
    ((returned_doc env raw doc', None),
     mkWorld (fst (run_stmt env (Delete id) (db w))) (pending w)
       (trace w ++ [EvExec (Delete id)]
          ++ match snd (run_stmt env (Delete id) (db w)) with
             | Some _ => [EvLog "error"]
             | None => []
             end
          ++ strip_events raw (Content doc))%list)
  else
    ((returned_doc env raw doc', None),
     mkWorld (db w) (pending w) (trace w ++ strip_events raw (Content doc))%list).
Proof.
  intros Hv. unfold Request_expiration.
  destruct (time_Parse env s) as [t perr]. cbn [fst] in *.
  cbn [Expiration set_Expiration Views]. rewrite Hv.
  unfold Request_return, db_Exec, call_StripHTML, Log,
    when_err, run_stmt, returned_doc, strip_events, emit, bind, ret.
  cbn [Content set_Expiration Views].
  destruct (Views doc >? 0)%Z; cbn [db pending trace fst snd].
  - destruct (exec_fault env (db w) (Delete id)) as [e |];
      cbn [db pending trace fst snd]; destruct raw;
      cbn [db pending trace fst snd]; flatten_trace;
      rewrite ?app_nil_r; reflexivity.
  - destruct raw; cbn [db pending trace fst snd]; rewrite ?app_nil_r;
      destruct w; reflexivity.
Qed.

Lemma select_row_increment h t row :
  select_row h t = Some row ->
  select_row h (apply_stmt (IncrementViews h) t) = Some (bump_views row).
Proof.
  unfold select_row. cbn [apply_stmt].
  induction t as [| a t IH]; intros H; [discriminate |].
  cbn [map find] in *.
  destruct (String.eqb (row_id a) h) eqn:E.
  - inversion H; subst a. cbn [bump_views row_id]. rewrite E. reflexivity.
  - rewrite E. apply IH. exact H.
Qed.

Lemma select_row_after_increment env h t row :
  select_row h t = Some row ->
  select_row h (fst (run_stmt env (IncrementViews h) t)) <> None.
Proof.
  intros H. unfold run_stmt.
  destruct (exec_fault env t (IncrementViews h)); cbn [fst].
  - rewrite H. discriminate.
  - rewrite (select_row_increment _ _ _ H). discriminate.
Qed.

(** C1, as the code has it: the first read of a volatile record (stored
    expiration at the Unix epoch, stored view count zero) returns the
    decrypted content and no error, and issues no DELETE: beside the
    query, the only statement is the view-count update, and when it has
    run the record is still in the table. *)
Theorem Request_volatile_first_read :
  forall env now id raw w row key data s,
    fetches env w id row ->
    decrypts env id row key data ->
    pending w = [] ->
    row_views row = 0%Z ->
    row_expiration row = Some s ->
    fst (time_Parse env s) = time_Unix 0 0 ->
    let res := Request env now id raw w in
    snd (fst res) = None /\
    Content (fst (fst res)) = returned_content env raw data /\
    trace (snd res) =
      (trace w ++ [EvQueryRow (sha256_hex env id);
                   EvGo (IncrementViews (sha256_hex env id));
                   EvScrypt id (salt_of env row);
                   EvDecrypt (row_content row) key]
         ++ strip_events raw data)%list /\
    db (settle env (snd res)) =
      fst (run_stmt env (IncrementViews (sha256_hex env id)) (db w)) /\
    select_row (sha256_hex env id) (db (settle env (snd res))) <> None.
Proof.
  intros env now id raw w row key data s Hf [Hk Hd] Hp Hv He Ht res.
  subst res. rewrite (Request_after_fetch env now id raw w row key Hf Hk).
  cbv zeta. rewrite Hd, He.
  rewrite Request_expiration_volatile by (rewrite Ht; reflexivity).
  cbv zeta. cbn [Views doc_of_row Content]. rewrite Hv.
  change (0 >? 0)%Z with false. cbv iota.
  cbn [fst snd trace db pending].
  assert (Hdb : db (settle env
             (mkWorld (db (after_fetch env w id row key))
                      (pending (after_fetch env w id row key))
                      (trace (after_fetch env w id row key)
                         ++ strip_events raw data)%list))
           = fst (run_stmt env (IncrementViews (sha256_hex env id)) (db w))).
  { unfold settle, after_fetch, run_stmt. cbn [db pending trace].
    rewrite Hp. destruct (go_eager env); reflexivity. }
  repeat split.
  - unfold returned_doc, returned_content. destruct raw; reflexivity.
  - unfold after_fetch. cbn [trace]. rewrite <- app_assoc. reflexivity.
  - exact Hdb.
  - rewrite Hdb. apply select_row_after_increment with (row := row).
    apply Hf.
Qed.

(** The record of "abc", volatile and never viewed, read once. *)
Lemma Request_volatile_first_read_witness :
  let res := Request demo_env demo_now "abc" false
               (demo_world (Some "1970-01-01 00:00:00") 0) in
  snd (fst res) = None /\
  Content (fst (fst res)) = "hello" /\
  select_row "sha256:abc" (db (settle demo_env (snd res))) <> None.
Proof.
  pose proof (Request_volatile_first_read demo_env demo_now "abc" false
                (demo_world (Some "1970-01-01 00:00:00") 0)
                (demo_row (Some "1970-01-01 00:00:00") 0)
                "abc@2020-01-01 00:00:00" "hello" "1970-01-01 00:00:00"
                (conj eq_refl eq_refl) (conj eq_refl eq_refl)
                eq_refl eq_refl eq_refl eq_refl) as H.
  cbv zeta in H. destruct H as (H1 & H2 & _ & _ & H5).
  repeat split; assumption.
Defined.

(** C1, as claimed, on the record of "abc" with the expiration
    1970-01-01 00:00:00 and no views: the read succeeds, and the record is
    still there when the view-count update has run. *)
Lemma volatile_first_read_keeps_record :
  ~ read_deletes_record demo_env demo_now "abc" false
      (demo_world (Some "1970-01-01 00:00:00") 0).
Proof.
  unfold read_deletes_record. intros [_ H]. vm_compute in H. discriminate H.
Qed.

Lemma select_row_delete_other h key t :
  h <> key ->
  select_row h (apply_stmt (Delete key) t) = select_row h t.
Proof.
  intros Hne. unfold select_row. cbn [apply_stmt].
  induction t as [| a t IH]; [reflexivity |].
  cbn [filter find].
  destruct (String.eqb (row_id a) key) eqn:Ek; cbn [negb].
  - apply String.eqb_eq in Ek.
    destruct (String.eqb (row_id a) h) eqn:Eh; [| exact IH].
    apply String.eqb_eq in Eh. congruence.
  - cbn [find]. destruct (String.eqb (row_id a) h); [reflexivity | exact IH].
Qed.

Lemma select_row_survives env h stmt t :
  (forall key, stmt = Delete key -> h <> key) ->
  (forall r, stmt <> Insert r) ->
  select_row h t <> None ->
  select_row h (fst (run_stmt env stmt t)) <> None.
Proof.
  intros Hd Hi H. unfold run_stmt.
  destruct (exec_fault env t stmt); cbn [fst]; [exact H |].
  destruct stmt as [r | key | key].
  - exfalso. apply (Hi r). reflexivity.
  - destruct (select_row h t) as [row |] eqn:E; [| contradiction].
    destruct (String.eqb key h) eqn:Ek.
    + apply String.eqb_eq in Ek. subst key.
      rewrite (select_row_increment _ _ _ E). discriminate.
    + unfold select_row in *. cbn [apply_stmt].
      clear H Hd Hi. revert E. induction t as [| a t IH]; [discriminate |].
      cbn [map find]. intros E.
      destruct (String.eqb (row_id a) h) eqn:Ea.
      * apply String.eqb_eq in Ea.
        destruct (String.eqb (row_id a) key) eqn:Eb.
        -- apply String.eqb_eq in Eb. rewrite <- Ea, <- Eb in Ek.
           rewrite String.eqb_refl in Ek. discriminate.
        -- rewrite <- Ea, String.eqb_refl. discriminate.
      * destruct (String.eqb (row_id a) key);
          cbn [bump_views row_id]; rewrite Ea; apply IH; exact E.
  - rewrite select_row_delete_other by (apply Hd; reflexivity). exact H.
Qed.

(** C2, where the code leaves it: a read that finds a volatile record
    with a view count above zero queries and updates under the digest of
    the identifier, but issues its DELETE for the raw identifier; when
    digest and identifier differ, the record is therefore still in the
    table afterwards. *)
Theorem Request_volatile_delete_key :
  forall env now id raw w row key data s,
    fetches env w id row ->
    decrypts env id row key data ->
    (row_views row > 0)%Z ->
    row_expiration row = Some s ->
    time_Before (fst (time_Parse env s)) (time_Unix 0 1) = true ->
    let res := Request env now id raw w in
    snd (fst res) = None /\
    (exists tail,
       trace (snd res) =
         (trace w ++ [EvQueryRow (sha256_hex env id);
                      EvGo (IncrementViews (sha256_hex env id));
                      EvScrypt id (salt_of env row);
                      EvDecrypt (row_content row) key;
                      EvExec (Delete id)] ++ tail)%list /\
       forall ev, In ev tail ->
                  ev = EvLog "error" \/ ev = EvStripHTML data) /\
    (sha256_hex env id <> id -> pending w = [] ->
     select_row (sha256_hex env id) (db (settle env (snd res))) <> None).
Proof.
  intros env now id raw w row key data s Hf [Hk Hd] Hv He Ht res.
  subst res. rewrite (Request_after_fetch env now id raw w row key Hf Hk).
  cbv zeta. rewrite Hd, He.
  rewrite Request_expiration_volatile by exact Ht.
  cbv zeta. cbn [Views doc_of_row Content].
  replace (row_views row >? 0)%Z with true by (symmetry; apply Z.gtb_lt; lia).
  cbv iota. cbn [fst snd trace db pending].
  split; [reflexivity |]. split.
  - exists (match snd (run_stmt env (Delete id)
                         (db (after_fetch env w id row key))) with
            | Some _ => [EvLog "error"]
            | None => []
            end ++ strip_events raw data)%list.
    split.
    + unfold after_fetch. cbn [trace]. rewrite <- !app_assoc. reflexivity.
    + intros ev Hin. apply in_app_or in Hin. destruct Hin as [Hin | Hin].
      * destruct (snd (run_stmt env (Delete id)
                         (db (after_fetch env w id row key))));
          [destruct Hin as [<- | []]; left; reflexivity | destruct Hin].
      * unfold strip_events in Hin. destruct raw;
          [destruct Hin as [<- | []]; right; reflexivity | destruct Hin].
  - intros Hne Hp. destruct Hf as [_ Hs].
    assert (Hsome : select_row (sha256_hex env id) (db w) <> None)
      by (rewrite Hs; discriminate).
    unfold settle, after_fetch. cbn [db pending trace]. rewrite Hp.
    destruct (go_eager env); cbn [app fold_left].
    + apply select_row_survives;
        [intros k E; inversion E; subst; exact Hne | discriminate |].
      apply (select_row_survives env _ (IncrementViews (sha256_hex env id)));
        [discriminate | discriminate | exact Hsome].
    + apply (select_row_survives env _ (IncrementViews (sha256_hex env id)));
        [discriminate | discriminate |].
      apply select_row_survives;
        [intros k E; inversion E; subst; exact Hne | discriminate |
         exact Hsome].
Qed.

(** The volatile record of "abc", already viewed once, read again. *)
Lemma Request_volatile_delete_key_witness :
  let res := Request demo_env demo_now "abc" false
               (demo_world (Some "1970-01-01 00:00:00") 1) in
  In (EvExec (Delete "abc")) (trace (snd res)) /\
  select_row "sha256:abc" (db (settle demo_env (snd res))) <> None.
Proof.
  pose proof (Request_volatile_delete_key demo_env demo_now "abc" false
                (demo_world (Some "1970-01-01 00:00:00") 1)
                (demo_row (Some "1970-01-01 00:00:00") 1)
                "abc@2020-01-01 00:00:00" "hello" "1970-01-01 00:00:00"
                (conj eq_refl eq_refl) (conj eq_refl eq_refl)
                eq_refl eq_refl eq_refl) as H.
  cbv zeta in H. destruct H as (_ & (tail & Ht & _) & Hkeep).
  split.
  - rewrite Ht. apply in_or_app. right. simpl. tauto.
  - apply Hkeep; [discriminate | reflexivity].
Defined.

(** C3: when [decrypt] fails with the authentication error and the stored
    content has no null byte, [Request] goes on to the expiration policy
    with the stored bytes as the content, and returns them without error
    when no expiration is stored; every other failure of [decrypt] is
    returned to the caller with no document. *)
Theorem Request_decrypt_failure :
  forall env now id raw w row key data e,
    fetches env w id row ->
    scrypt_Key env id (salt_of env row) = (key, None) ->
    decrypt env (row_content row) key = (data, Some e) ->
    (e = auth_failed /\
     strings_Contains (row_content row) (str1 NUL) = false ->
     Request env now id raw w =
       Request_expiration env now id raw
         (doc_of_row env id row (row_content row)) (row_expiration row)
         (after_fetch env w id row key) /\
     (row_expiration row = None ->
      fst (Request env now id raw w) =
        (returned_doc env raw (doc_of_row env id row (row_content row)),
         None))) /\
    (~ (e = auth_failed /\
        strings_Contains (row_content row) (str1 NUL) = false) ->
     fst (Request env now id raw w) = (Document_zero, Some e)).
Proof.
  intros env now id raw w row key data e Hf Hk Hd.
  rewrite (Request_after_fetch env now id raw w row key Hf Hk).
  cbv zeta. rewrite Hd. split.
  - intros [-> Hnul]. rewrite Hnul, String.eqb_refl. cbn [negb andb].
    split; [reflexivity |].
    intros ->. unfold Request_expiration, Request_return, returned_doc,
      call_StripHTML, emit, bind, ret.
    destruct raw; reflexivity.
  - intros Hnot.
    destruct (String.eqb e auth_failed) eqn:Ee;
      destruct (strings_Contains (row_content row) (str1 NUL)) eqn:En;
      cbn [negb andb]; try reflexivity.
    exfalso. apply Hnot. apply String.eqb_eq in Ee. split; [exact Ee | reflexivity].
Qed.

(** The unencrypted record of "abc" is returned as it is stored. *)
Lemma Request_decrypt_failure_witness :
  fst (Request demo_env demo_now "abc" false demo_legacy_world)
  = (mkDocument "abc" "hello" "" (time_Unix 1577836800 0) time_zero 3 "",
     None).
Proof.
  pose proof (Request_decrypt_failure demo_env demo_now "abc" false
                demo_legacy_world
                (mkRow "sha256:abc" "hello" "" ""
                       (Some "2020-01-01 00:00:00") None 3)
                "abc@2020-01-01 00:00:00" ""
                "cipher: message authentication failed"
                (conj eq_refl eq_refl) eq_refl eq_refl) as [H _].
  destruct (H (conj eq_refl eq_refl)) as [_ H2].
  exact (H2 eq_refl).
Defined.

(** C5, where the code leaves it: when the stored expiration does not
    parse, so that the parser answers the zero time and an error, the
    policy takes the volatile branch: the error is dropped and the
    document is returned with its content. *)
Theorem Request_unparsable_expiration :
  forall env now id raw w row key data s e,
    fetches env w id row ->
    decrypts env id row key data ->
    row_expiration row = Some s ->
    time_Parse env s = (time_zero, Some e) ->
    let res := Request env now id raw w in
    snd (fst res) = None /\
    Content (fst (fst res)) = returned_content env raw data /\
    ((row_views row > 0)%Z -> In (EvExec (Delete id)) (trace (snd res))).
Proof.
  intros env now id raw w row key data s e Hf [Hk Hd] He Hp res.
  subst res. rewrite (Request_after_fetch env now id raw w row key Hf Hk).
  cbv zeta. rewrite Hd, He.
  rewrite Request_expiration_volatile by (rewrite Hp; reflexivity).
  cbv zeta. cbn [Views doc_of_row Content].
  destruct (row_views row >? 0)%Z eqn:Ev; cbn [fst snd trace].
  - repeat split.
    + unfold returned_doc, returned_content. destruct raw; reflexivity.
    + intros _. apply in_or_app. right. left. reflexivity.
  - repeat split.
    + unfold returned_doc, returned_content. destruct raw; reflexivity.
    + intros Hv. exfalso.
      rewrite Z.gtb_ltb in Ev. apply Z.ltb_ge in Ev. lia.
Qed.

(** The record of "abc" with an expiration column that is no date. *)
Lemma Request_unparsable_expiration_witness :
  let res := Request demo_env demo_now "abc" false
               (demo_world (Some "0000-00-00 00:00:00") 0) in
  snd (fst res) = None /\ Content (fst (fst res)) = "hello".
Proof.
  pose proof (Request_unparsable_expiration demo_env demo_now "abc" false
                (demo_world (Some "0000-00-00 00:00:00") 0)
                (demo_row (Some "0000-00-00 00:00:00") 0)
                "abc@2020-01-01 00:00:00" "hello" "0000-00-00 00:00:00"
                "parsing time: cannot parse"
                (conj eq_refl eq_refl) (conj eq_refl eq_refl)
                eq_refl eq_refl) as H.
  cbv zeta in H. destruct H as (H1 & H2 & _). split; assumption.
Defined.

(** The other half of the expiration policy: a stored expiration that
    parses to an instant after the epoch and before [now] makes the read
    fail with the expiration error and the empty document. *)
Lemma Request_hard_expired env now id raw w row key data s t :
  fetches env w id row ->
  decrypts env id row key data ->
  row_expiration row = Some s ->
  time_Parse env s = (t, None) ->
  time_Before t (time_Unix 0 1) = false ->
  time_Before t now = true ->
  fst (Request env now id raw w)
  = (Document_zero, Some "the document has expired").
Proof.
  intros Hf [Hk Hd] He Hp Hv Hn.
  rewrite (Request_after_fetch env now id raw w row key Hf Hk).
  cbv zeta. rewrite Hd, He. unfold Request_expiration. rewrite Hp.
  cbn [Expiration set_Expiration]. rewrite Hv, Hn. reflexivity.
Qed.

(** ** [Store] *)

(** C7: when the normalized content has a null byte, [Store] returns an
    error (the rejection "file contains 0x00 bytes" whenever the name
    generation before it succeeded) and has by then called nothing but
    the name generator: no rendering, no spam filter, no key derivation,
    no encryption, no statement; the table is as it was. *)
Theorem Store_rejects_null_byte : forall env now document w,
  strings_Contains (normalize_newlines (Content document)) (str1 NUL) = true ->
  let res := Store env now document w in
  snd (fst res) <> None /\
  (snd (GenerateSafeName env (db w)) = None ->
   snd (fst res) = Some "file contains 0x00 bytes") /\
  db (snd res) = db w /\
  pending (snd res) = pending w /\
  trace (snd res) = (trace w ++ [EvGenerateSafeName])%list.
Proof.
  intros env now document w H res. subst res.
  unfold Store, call_GenerateSafeName, emit, bind, ret.
  destruct (GenerateSafeName env (db w)) as [name [e |]]; cbn [fst snd].
  - repeat split; try reflexivity; discriminate.
  - cbn [Content set_Content set_Expiration set_Upload set_ID].
    rewrite H. cbn [fst snd db pending trace].
    repeat split; try reflexivity; discriminate.
Qed.

(** A text with a null byte in the middle is rejected. *)
Lemma Store_rejects_null_byte_witness :
  let res := Store demo_env demo_now
               (mkDocument "" (String "a" (String NUL "b")) "" time_zero
                           time_zero 0 "")
               (mkWorld [] [] []) in
  snd (fst res) = Some "file contains 0x00 bytes" /\ db (snd res) = [].
Proof.
  pose proof (Store_rejects_null_byte demo_env demo_now
                (mkDocument "" (String "a" (String NUL "b")) "" time_zero
                            time_zero 0 "")
                (mkWorld [] [] []) eq_refl) as H.
  cbv zeta in H. destruct H as (_ & H2 & H3 & _).
  split; [exact (H2 eq_refl) | exact H3].
Defined.

Ltac store_simpl :=
  cbn [fst snd db pending trace Content Custom Syntax ID Upload Expiration
       Views set_Content set_Expiration set_Upload set_ID set_Syntax andb].

(** The body of [Store], entered. *)
Ltac store_enter env w :=
  unfold Store, Store_render, Store_persist, call_GenerateSafeName,
    call_Highlight, call_EscapeHTML, call_FilterSpam, call_scrypt,
    call_encrypt, db_Exec, run_stmt, Log, when_err, emit, bind, ret;
  cbn [db pending trace];
  destruct (GenerateSafeName env (db w)) as [?name [?e |]];
  store_simpl.

(** Every path through [Store], one goal per path. *)
Ltac store_branch env :=
  repeat match goal with
    | |- context [exec_fault env ?t ?s] =>
        destruct (exec_fault env t s) eqn:?; store_simpl
    | |- context [if ?b then _ else _] =>
        destruct b eqn:?; store_simpl
    | |- context [let '(_, _) := ?p in _] =>
        destruct p as [? [? |]] eqn:?; store_simpl
    | |- context [match ?o with Some _ => _ | None => _ end] =>
        destruct o eqn:?; store_simpl
    end.

Ltac store_paths env w := store_enter env w; store_branch env.

(** C6, as the code has it: a successful [Store] appends one record to
    the table, under the digest of the new identifier, and its view count
    is the [Views] field of the document passed in; it is zero when the
    caller left that field at zero. *)
Theorem Store_persists_views : forall env now document w,
  let res := Store env now document w in
  snd (fst res) = None ->
  exists row,
    db (snd res) = (db w ++ [row])%list /\
    row_id row = sha256_hex env (ID (fst (fst res))) /\
    row_views row = Views document /\
    (Views document = 0%Z -> row_views row = 0%Z).
Proof.
  intros env now document w res. subst res.
  store_paths env w; intros Hok; try discriminate Hok.
  all: cbn [apply_stmt]; eexists; repeat split; cbn [row_id row_views]; auto.
Qed.

(** A document stored with the view count it came with. *)
Lemma Store_persists_views_witness :
  exists row,
    db (snd (Store demo_env demo_now
               (mkDocument "" "hello" "" time_zero time_zero 0 "")
               (mkWorld [] [] []))) = [row] /\
    row_views row = 0%Z.
Proof.
  destruct (Store_persists_views demo_env demo_now
              (mkDocument "" "hello" "" time_zero time_zero 0 "")
              (mkWorld [] [] []) eq_refl) as (row & Hdb & _ & _ & Hz).
  exists row. split; [exact Hdb | exact (Hz eq_refl)].
Defined.

(** C6, as claimed, on a document that comes with [Views = 5]: the
    record is stored with five views. *)
Lemma Store_keeps_caller_views :
  ~ Store_zeroes_views demo_env demo_now
      (mkDocument "" "hello" "" time_zero time_zero 5 "")
      (mkWorld [] [] []).
Proof.
  unfold Store_zeroes_views. intros H.
  destruct (H eq_refl) as (row & Hdb & Hv).
  vm_compute in Hdb. inversion Hdb; subst row. discriminate Hv.
Qed.

Ltac split_events :=
  repeat rewrite in_app_iff in *; cbn [In] in *;
  repeat match goal with
    | H : _ \/ _ |- _ => destruct H
    | H : False |- _ => destruct H
    | H : @eq Event _ _ |- _ => first [discriminate H | inversion H; subst; clear H]
    end.

Ltac string_facts :=
  repeat match goal with
    | H : String.eqb _ _ = true |- _ => apply String.eqb_eq in H
    | H : String.eqb _ _ = false |- _ => apply String.eqb_neq in H
    end.

Ltac event_cases :=
  repeat rewrite in_app_iff in *; cbn [In] in *;
  repeat match goal with
    | H : _ \/ _ |- _ => destruct H
    | H : False |- _ => destruct H
    | H : @eq Event _ _ |- _ => first [discriminate H | subst]
    end.

Ltac document_simpl :=
  unfold set_Syntax, set_Content, set_Expiration, set_Upload, set_ID,
    set_Views, set_Custom in *;
  cbn [fst snd Content Custom Syntax ID Upload Expiration Views andb] in *.

(** On every path of [Store]: the highlighter is called, and the record
    written, with the syntax hint of the document, except that for a
    document without [Custom] the hint "none" has been replaced by the
    empty string before the highlighter is called. *)
Lemma Store_syntax_every_path : forall env now document w,
  let res := Store env now document w in
  (forall c s, In (EvHighlight c s) (trace (snd res)) ->
     In (EvHighlight c s) (trace w) \/
     (Custom document = "" /\ s = kept_syntax document /\ s <> "none")) /\
  (forall row, In (EvExec (Insert row)) (trace (snd res)) ->
     In (EvExec (Insert row)) (trace w) \/
     (row_custom row = Custom document /\
      row_syntax row = kept_syntax document /\
      (row_custom row = "" -> row_syntax row <> "none"))) /\
  (snd (fst res) = None ->
   Syntax (fst (fst res)) = kept_syntax document /\
   (exists row, db (snd res) = (db w ++ [row])%list /\
                row_custom row = Custom document /\
                row_syntax row = kept_syntax document) /\
   (Custom document = "" ->
    In (EvHighlight (Content (fst (fst res))) (kept_syntax document))
       (trace (snd res)))).
Proof.
  intros env now document w res. subst res. unfold kept_syntax.
  store_enter env w;
    destruct (String.eqb (Custom document) "") eqn:Ec;
    destruct (String.eqb (Syntax document) "none") eqn:Es;
    store_simpl; store_branch env.
  all: string_facts.
  all: repeat split; intros; split_events; auto; try discriminate.
  all: cbn [row_custom row_syntax] in *.
  all: try solve [right; repeat split; auto; try discriminate; congruence].
  all: try solve [eexists; repeat split; reflexivity].
  all: try solve [tauto].
Qed.

(** ** [Store]: what it does to the content and to the syntax hint *)

(** The content behind the pointer once the name is generated, on every
    path. *)
Lemma Store_content env now document w name :
  GenerateSafeName env (db w) = (name, None) ->
  Content (fst (fst (Store env now document w)))
  = normalize_newlines (Content document).
Proof.
  intros Hg.
  unfold Store, Store_render, Store_persist, call_GenerateSafeName,
    call_Highlight, call_EscapeHTML, call_FilterSpam, call_scrypt,
    call_encrypt, db_Exec, run_stmt, Log, when_err, emit, bind, ret.
  cbn [db pending trace]. rewrite Hg. store_simpl.
  store_branch env; reflexivity.
Qed.

(** The rendering call [Store] makes when the content is accepted. *)
Lemma Store_renders_normalized env now document w name :
  GenerateSafeName env (db w) = (name, None) ->
  strings_Contains (normalize_newlines (Content document)) (str1 NUL) = false ->
  (Custom document = "" /\
   In (EvHighlight (normalize_newlines (Content document))
                   (kept_syntax document))
      (trace (snd (Store env now document w)))) \/
  (Custom document <> "" /\
   In (EvEscapeHTML (normalize_newlines (Content document)))
      (trace (snd (Store env now document w)))).
Proof.
  intros Hg Hnul. unfold kept_syntax.
  unfold Store, Store_render, Store_persist, call_GenerateSafeName,
    call_Highlight, call_EscapeHTML, call_FilterSpam, call_scrypt,
    call_encrypt, db_Exec, run_stmt, Log, when_err, emit, bind, ret.
  cbn [db pending trace]. rewrite Hg. store_simpl. rewrite Hnul.
  destruct (String.eqb (Custom document) "") eqn:Ec;
    destruct (String.eqb (Syntax document) "none") eqn:Es;
    store_simpl; store_branch env; string_facts.
  all: first [left; split; [assumption | event_cases; tauto]
             | right; split; [assumption | event_cases; tauto]].
Qed.

(** C8: once the name is generated, the content [Store] leaves in the
    document, on every path, is the caller's text with every "\r\n" and
    every lone "\r" turned into "\n", without the newlines it then
    starts and ends with, followed by one newline; "line1\r\nline2\r"
    becomes "line1\nline2\n".  Unless it has a null byte, this text is
    what [Store] hands to the highlighter or to the escaper. *)
Theorem Store_normalizes_content : forall env now document w,
  snd (GenerateSafeName env (db w)) = None ->
  let res := Store env now document w in
  (exists body i j,
     Content (fst (fst res)) = body ++ str1 LF /\
     convert_line_endings (Content document) = newlines i ++ body ++ newlines j /\
     first_byte body <> Some LF /\ last_byte body <> Some LF) /\
  (Content document = "line1" ++ String CR (String LF "line2") ++ str1 CR ->
   Content (fst (fst res)) = "line1" ++ String LF "line2" ++ str1 LF) /\
  (strings_Contains (Content (fst (fst res))) (str1 NUL) = false ->
   (exists syntax,
      In (EvHighlight (Content (fst (fst res))) syntax) (trace (snd res))) \/
   In (EvEscapeHTML (Content (fst (fst res)))) (trace (snd res))).
Proof.
  intros env now document w Hg res. subst res.
  destruct (GenerateSafeName env (db w)) as [name gerr] eqn:Eg.
  cbn [snd] in Hg. subst gerr.
  rewrite (Store_content env now document w name Eg).
  destruct (normalize_newlines_spec (Content document)) as [Hshape Hex].
  split; [exact Hshape |]. split.
  - intros ->. exact Hex.
  - intros Hnul.
    destruct (Store_renders_normalized env now document w name Eg Hnul)
      as [[_ H] | [_ H]].
    + left. exists (kept_syntax document). exact H.
    + right. exact H.
Qed.

(** "line1\r\nline2\r" stored in the small environment. *)
Lemma Store_normalizes_content_witness :
  let res := Store demo_env demo_now
               (mkDocument ""
                  ("line1" ++ String CR (String LF "line2") ++ str1 CR)
                  "" time_zero time_zero 0 "")
               (mkWorld [] [] []) in
  Content (fst (fst res)) = "line1" ++ String LF "line2" ++ str1 LF.
Proof.
  intros res.
  exact (proj1 (proj2 (Store_normalizes_content demo_env demo_now
                         (mkDocument ""
                            ("line1" ++ String CR (String LF "line2")
                               ++ str1 CR)
                            "" time_zero time_zero 0 "")
                         (mkWorld [] [] []) eq_refl)) eq_refl).
Defined.

(** C10: when [Store] gets as far as the rendering and its collaborators
    let it through (name generated, no null byte, no spam hit,
    encryption and INSERT succeed), it returns nil, the document and the
    one record it appends carry the syntax hint [kept_syntax]: the empty
    string when [Custom] is empty and the hint was "none", the caller's
    hint in every other case; for a document without [Custom] this is
    also the hint the highlighter is called with, before the INSERT, and
    [Store] calls the highlighter with no other hint and inserts no
    other record, so "none" is neither highlighted with nor stored. *)
Theorem Store_rewrites_syntax_none : forall env now document w name data,
  GenerateSafeName env (db w) = (name, None) ->
  strings_Contains (normalize_newlines (Content document)) (str1 NUL) = false ->
  FilterSpam env (stored_document now name document)
    (rendered_content env (stored_document now name document)) = None ->
  encrypt env (rendered_content env (stored_document now name document))
    (fst (scrypt_Key env name (time_Format env (time_Round_Second now))))
  = (data, None) ->
  exec_fault env (db w)
    (Insert (stored_row env (stored_document now name document) data)) = None ->
  let res := Store env now document w in
  let row := stored_row env (stored_document now name document) data in
  (forall c s, In (EvHighlight c s) (trace (snd res)) ->
     In (EvHighlight c s) (trace w) \/
     (Custom document = "" /\ s = kept_syntax document /\ s <> "none")) /\
  (forall r, In (EvExec (Insert r)) (trace (snd res)) ->
     In (EvExec (Insert r)) (trace w) \/
     (row_custom r = Custom document /\
      row_syntax r = kept_syntax document /\
      (row_custom r = "" -> row_syntax r <> "none"))) /\
  snd (fst res) = None /\
  Syntax (fst (fst res)) = kept_syntax document /\
  db (snd res) = (db w ++ [row])%list /\
  row_syntax row = kept_syntax document /\
  row_custom row = Custom document /\
  (Custom document = "" -> Syntax document = "none" ->
   kept_syntax document = "") /\
  (~ (Custom document = "" /\ Syntax document = "none") ->
   kept_syntax document = Syntax document) /\
  (Custom document = "" ->
   kept_syntax document <> "none" /\
   exists post,
     trace (snd res)
     = (trace w ++ EvGenerateSafeName
          :: EvHighlight (normalize_newlines (Content document))
                         (kept_syntax document)
          :: post)%list /\
     In (EvExec (Insert row)) post).
Proof.
  intros env now document w name data Hg Hnul Hspam Henc Hexec res row.
  subst res row.
  split; [exact (proj1 (Store_syntax_every_path env now document w)) |].
  split;
    [exact (proj1 (proj2 (Store_syntax_every_path env now document w))) |].
  unfold stored_row, stored_document, rendered_content, kept_syntax in *.
  cbn [ID Content Syntax Upload Expiration Views Custom] in *.
  unfold Store, Store_render, Store_persist, call_GenerateSafeName,
    call_Highlight, call_EscapeHTML, call_FilterSpam, call_scrypt,
    call_encrypt, db_Exec, run_stmt, Log, when_err, emit, bind, ret.
  cbn [db pending trace]. rewrite Hg. store_simpl. rewrite Hnul.
  document_simpl.
  destruct (scrypt_Key env name (time_Format env (time_Round_Second now)))
    as [key kerr] eqn:Ek.
  cbn [fst] in Henc.
  destruct (String.eqb (Custom document) "") eqn:Ec;
    [destruct (String.eqb (Syntax document) "none") eqn:Es |];
    document_simpl;
    try (destruct (Highlight env _ _) as [h [he |]] eqn:Eh;
         cbn [fst] in Hspam, Henc; document_simpl);
    rewrite Hspam; cbn [fst snd db pending trace];
    rewrite Ek; destruct kerr; cbn [fst snd db pending trace];
    rewrite Henc; cbn [fst snd db pending trace];
    rewrite Hexec; cbn [fst snd db pending trace apply_stmt row_syntax
                        row_custom];
    string_facts.
  all: repeat match goal with |- _ /\ _ => split end;
    try reflexivity; try (intros; congruence); try discriminate.
  all: try solve [intros Hn; exfalso; apply Hn; split; assumption].
  all: try solve [intros Hc; contradiction].
  all: intros _; split;
    [first [discriminate | assumption]
    | eexists; split; [flatten_trace; reflexivity | simpl; tauto]].
Qed.

(** A document with the hint "none" and no [Custom], stored in the
    small environment. *)
Lemma Store_rewrites_syntax_none_witness :
  let res := Store demo_env (time_Unix 1577836800 0)
               (mkDocument "" "hello" "none" time_zero time_zero 0 "")
               (mkWorld [] [] []) in
  snd (fst res) = None /\
  Syntax (fst (fst res)) = "" /\
  (exists row, db (snd res) = [row] /\ row_syntax row = "") /\
  In (EvHighlight ("hello" ++ str1 LF) "") (trace (snd res)).
Proof.
  intros res.
  pose proof (Store_rewrites_syntax_none demo_env (time_Unix 1577836800 0)
                (mkDocument "" "hello" "none" time_zero time_zero 0 "")
                (mkWorld [] [] []) "corn-flake-ab12"
                ("[corn-flake-ab12@2020-01-01 00:00:00]hello" ++ str1 LF)
                eq_refl eq_refl eq_refl eq_refl eq_refl) as H.
  cbv zeta in H.
  destruct H as (_ & _ & H1 & H2 & H3 & H4 & _ & _ & _ & H8).
  destruct (H8 eq_refl) as (_ & post & Ht & _).
  split; [exact H1 |]. split; [exact H2 |]. split.
  - eexists. split; [exact H3 | exact H4].
  - fold res in Ht. rewrite Ht. simpl. tauto.
Defined.

(** ** Loading the word list *)

Lemma byte_ToLower_not_upper c : is_upper (byte_ToLower c) = false.
Proof.
  destruct c as [[] [] [] [] [] [] [] []]; reflexivity.
Qed.

Lemma byte_ToLower_space c :
  in_cutset (byte_ToLower c) ascii_space = in_cutset c ascii_space.
Proof.
  destruct c as [[] [] [] [] [] [] [] []]; reflexivity.
Qed.

Lemma ToLower_no_upper s :
  all_bytes (fun c => negb (is_upper c)) (strings_ToLower s) = true.
Proof.
  induction s as [| c s IH]; [reflexivity |].
  cbn [strings_ToLower all_bytes].
  rewrite byte_ToLower_not_upper, IH. reflexivity.
Qed.

Lemma ToLower_first_byte s :
  first_byte (strings_ToLower s) = option_map byte_ToLower (first_byte s).
Proof. destruct s; reflexivity. Qed.

Lemma ToLower_last_byte s :
  last_byte (strings_ToLower s) = option_map byte_ToLower (last_byte s).
Proof.
  induction s as [| c s IH]; [reflexivity |].
  destruct s as [| d s']; [reflexivity |].
  change (last_byte (strings_ToLower (String c (String d s'))))
    with (last_byte (strings_ToLower (String d s'))).
  rewrite IH. reflexivity.
Qed.

Lemma TrimRight_last_byte s cutset c :
  last_byte (strings_TrimRight s cutset) = Some c ->
  in_cutset c cutset = false.
Proof.
  induction s as [| d s IH]; [discriminate |].
  cbn [strings_TrimRight].
  destruct (strings_TrimRight s cutset) as [| e r] eqn:Er.
  - destruct (in_cutset d cutset) eqn:Ed; [discriminate |].
    intros H. inversion H; subst. exact Ed.
  - exact IH.
Qed.

Lemma TrimLeft_first_byte s cutset c :
  first_byte (strings_TrimLeft s cutset) = Some c ->
  in_cutset c cutset = false.
Proof.
  induction s as [| d s IH]; [discriminate |].
  cbn [strings_TrimLeft].
  destruct (in_cutset d cutset) eqn:Ed; [exact IH |].
  intros H. inversion H; subst. exact Ed.
Qed.

Lemma TrimLeft_last_byte s cutset c :
  last_byte (strings_TrimLeft s cutset) = Some c ->
  last_byte s = Some c.
Proof.
  induction s as [| d s IH]; [discriminate |].
  cbn [strings_TrimLeft].
  destruct (in_cutset d cutset); [| auto].
  intros H. specialize (IH H).
  destruct s; [discriminate | exact IH].
Qed.

Lemma LoadWordsFile_line_clean words line w :
  In w (LoadWordsFile_line words line) ->
  In w words \/
  (w = strings_ToLower (strings_TrimSpace line) /\ clean_word w).
Proof.
  unfold LoadWordsFile_line.
  destruct ((0 <? String.length (strings_ToLower (strings_TrimSpace line)))%nat
            && negb (strings_HasPrefix
                       (strings_ToLower (strings_TrimSpace line)) "#"))
    eqn:E; [| auto].
  intros H. apply in_app_or in H. destruct H as [H | [<- | []]]; [auto |].
  right. split; [reflexivity |].
  apply andb_true_iff in E. destruct E as [El Ep].
  apply Nat.ltb_lt in El. apply negb_true_iff in Ep.
  unfold clean_word. repeat split.
  - intros E0. rewrite E0 in El. simpl in El. lia.
  - exact Ep.
  - apply ToLower_no_upper.
  - intros c Hc. rewrite ToLower_first_byte in Hc.
    destruct (first_byte (strings_TrimSpace line)) as [d |] eqn:Ef;
      [| discriminate].
    inversion Hc; subst c. rewrite byte_ToLower_space.
    apply (TrimLeft_first_byte _ _ _ Ef).
  - intros c Hc. rewrite ToLower_last_byte in Hc.
    destruct (last_byte (strings_TrimSpace line)) as [d |] eqn:Ef;
      [| discriminate].
    inversion Hc; subst c. rewrite byte_ToLower_space.
    apply TrimLeft_last_byte in Ef.
    apply (TrimRight_last_byte _ _ _ Ef).
Qed.

Lemma LoadWordsFile_loop_clean source : forall words w,
  In w (fold_left LoadWordsFile_line source words) ->
  In w words \/
  (exists line, In line source /\
                w = strings_ToLower (strings_TrimSpace line) /\ clean_word w).
Proof.
  induction source as [| line source IH]; intros words w H; [auto |].
  cbn [fold_left] in H. apply IH in H. destruct H as [H | (l & Hl & Hw)].
  - apply LoadWordsFile_line_clean in H. destruct H as [H | [Hw Hc]]; [auto |].
    right. exists line. split; [left; reflexivity | auto].
  - right. exists l. split; [right; exact Hl | exact Hw].
Qed.

(** X1: a read file turns into a word list of clean words only, each the
    trimmed lower-case form of one of its lines; the load succeeds
    exactly when that list is not empty, and fails with its own error
    and an empty list otherwise. *)
Theorem LoadWordsFile_clean : forall content words words' err,
  is_ascii content = true ->
  LoadWordsFile (content, None) words = (words', err) ->
  (forall w, In w words' ->
     clean_word w /\
     exists line, In line (strings_Split content (str1 LF)) /\
                  w = strings_ToLower (strings_TrimSpace line)) /\
  (err = None <-> words' <> []) /\
  (err <> None ->
   err = Some "file doesn't contain any words" /\ words' = []).
Proof.
  intros content words words' err _ H. unfold LoadWordsFile in H.
  destruct (fold_left LoadWordsFile_line (strings_Split content (str1 LF)) [])
    as [| w0 ws] eqn:E; cbn [List.length Nat.eqb] in H;
    inversion H; subst words' err; clear H.
  - repeat split; try (intros; contradiction); try discriminate;
      try reflexivity.
  - split; [| split; [split; [discriminate | reflexivity] |
                      intros H; contradiction]].
    intros w Hw. rewrite <- E in Hw.
    apply LoadWordsFile_loop_clean in Hw.
    destruct Hw as [[] | (line & Hl & Hw & Hc)].
    split; [exact Hc | exists line; auto].
Qed.

(** A list with a comment, padding, a blank line and capitals. *)
Lemma LoadWordsFile_clean_witness :
  clean_word "corn" /\ clean_word "flake".
Proof.
  pose proof (LoadWordsFile_clean
                ("# list" ++ str1 LF ++ "  Corn " ++ str1 LF ++ str1 LF
                   ++ "FLAKE" ++ str1 LF)
                ["old"] ["corn"; "flake"] None eq_refl eq_refl) as [H _].
  split; apply H; simpl; auto.
Defined.

Lemma LoadWordsFile_loop_nothing source :
  (forall line, In line source ->
     strings_ToLower (strings_TrimSpace line) = "" \/
     strings_HasPrefix (strings_ToLower (strings_TrimSpace line)) "#" = true) ->
  fold_left LoadWordsFile_line source [] = [].
Proof.
  induction source as [| line source IH]; intros H; [reflexivity |].
  cbn [fold_left]. unfold LoadWordsFile_line at 2.
  destruct (H line (or_introl eq_refl)) as [E | E]; rewrite E.
  - cbn [String.length Nat.ltb Nat.leb andb]. apply IH.
    intros l Hl. apply H. right. exact Hl.
  - cbn [negb]. rewrite andb_false_r. apply IH.
    intros l Hl. apply H. right. exact Hl.
Qed.

(** X2: the two ways a load fails differ in what they leave behind.  A
    file that cannot be read leaves the word list as it was; a file that
    was read but has only blank and comment lines leaves the word list
    empty, whatever it held before. *)
Theorem LoadWordsFile_failures : forall content e words,
  LoadWordsFile (content, Some e) words = (words, Some e) /\
  ((forall line, In line (strings_Split content (str1 LF)) ->
      strings_ToLower (strings_TrimSpace line) = "" \/
      strings_HasPrefix (strings_ToLower (strings_TrimSpace line)) "#" = true) ->
   LoadWordsFile (content, None) words
   = ([], Some "file doesn't contain any words")).
Proof.
  intros content e words. split; [reflexivity |].
  intros H. unfold LoadWordsFile.
  rewrite (LoadWordsFile_loop_nothing _ H). reflexivity.
Qed.

(** A file with nothing but a comment wipes the list that was loaded. *)
Lemma LoadWordsFile_failures_witness :
  LoadWordsFile ("# nothing here" ++ str1 LF, None) ["corn"; "flake"]
  = ([], Some "file doesn't contain any words").
Proof.
  apply (LoadWordsFile_failures ("# nothing here" ++ str1 LF) "").
  intros line [<- | [<- | []]]; [right | left]; reflexivity.
Defined.

(** ** More on the identifier generator *)

Lemma randomWord_pick src pos array err :
  array <> [] ->
  fails (src pos) = false ->
  randomWord src pos array 0 err = (Returned (pick array src pos), (pos + 1)%nat).
Proof.
  intros Hne Hs. rewrite randomWord_step.
  change (0 >? 10)%Z with false. cbv iota. unfold rand_Int, pick.
  destruct (List.length array) as [| n] eqn:El.
  - destruct array; [contradiction | discriminate].
  - destruct (src pos) as [e | v]; [discriminate |].
    cbn [reading_value].
    rewrite (nth_error_nth' array "") by (rewrite El; apply Nat.mod_upper_bound; lia).
    rewrite Nat.add_1_r. reflexivity.
Qed.

Lemma pick_characters src k :
  exists c, pick characters src k = str1 c /\ alnum c = true.
Proof.
  apply characters_single. unfold pick. apply nth_In.
  apply Nat.mod_upper_bound. discriminate.
Qed.

(** X3: with a source whose next six readings succeed, [GenerateName]
    returns after exactly these six readings, and the slug is the one
    they select: six characters when there is no word list, otherwise
    two words of the list and four characters, a hyphen after each
    word. *)
Theorem GenerateName_working_source : forall src words pos,
  (forall k, (k < 6)%nat -> fails (src (pos + k)%nat) = false) ->
  GenerateName src words pos =
  (Returned
     (match words with
      | [] =>
          pick characters src pos ++ pick characters src (pos + 1)
          ++ pick characters src (pos + 2) ++ pick characters src (pos + 3)
          ++ pick characters src (pos + 4) ++ pick characters src (pos + 5)
      | _ :: _ =>
          pick words src pos ++ "-" ++ pick words src (pos + 1) ++ "-"
          ++ pick characters src (pos + 2) ++ pick characters src (pos + 3)
          ++ pick characters src (pos + 4) ++ pick characters src (pos + 5)
      end),
   (pos + 6)%nat).
Proof.
  intros src words pos H.
  pose proof (H 0%nat ltac:(lia)) as H0. rewrite Nat.add_0_r in H0.
  pose proof (H 1%nat ltac:(lia)) as H1. pose proof (H 2%nat ltac:(lia)) as H2.
  pose proof (H 3%nat ltac:(lia)) as H3. pose proof (H 4%nat ltac:(lia)) as H4.
  pose proof (H 5%nat ltac:(lia)) as H5.
  unfold GenerateName. cbn [GenerateName_for]. unfold GenerateName_body.
  change (0 + 1)%Z with 1%Z. change (1 + 1)%Z with 2%Z.
  change (2 + 1)%Z with 3%Z. change (3 + 1)%Z with 4%Z.
  change (4 + 1)%Z with 5%Z.
  change (0 <? 2)%Z with true. change (1 <? 2)%Z with true.
  change (2 <? 2)%Z with false. change (3 <? 2)%Z with false.
  change (4 <? 2)%Z with false. change (5 <? 2)%Z with false.
  change (0 <? 3)%Z with true. change (1 <? 3)%Z with true.
  change (2 <? 3)%Z with true. change (3 <? 3)%Z with false.
  change (4 <? 3)%Z with false. change (5 <? 3)%Z with false.
  cbn [andb].
  destruct words as [| w ws].
  - cbn [List.length Nat.ltb Nat.leb].
    rewrite (randomWord_pick src pos characters None characters_nonempty H0).
    rewrite (randomWord_pick src _ characters None characters_nonempty H1).
    replace (pos + 1 + 1)%nat with (pos + 2)%nat by lia.
    rewrite (randomWord_pick src _ characters None characters_nonempty H2).
    replace (pos + 2 + 1)%nat with (pos + 3)%nat by lia.
    rewrite (randomWord_pick src _ characters None characters_nonempty H3).
    replace (pos + 3 + 1)%nat with (pos + 4)%nat by lia.
    rewrite (randomWord_pick src _ characters None characters_nonempty H4).
    replace (pos + 4 + 1)%nat with (pos + 5)%nat by lia.
    rewrite (randomWord_pick src _ characters None characters_nonempty H5).
    replace (pos + 5 + 1)%nat with (pos + 6)%nat by lia.
    destruct (pick_characters src pos) as (c0 & E0 & A0).
    rewrite E0. unfold strings_TrimPrefix. cbn.
    rewrite (alnum_not_hyphen c0 A0). cbn.
    rewrite !append_assoc_s. reflexivity.
  - assert (Hne : w :: ws <> []) by discriminate.
    cbn [List.length Nat.ltb Nat.leb].
    rewrite (randomWord_pick src pos (w :: ws) None Hne H0).
    rewrite (randomWord_pick src _ (w :: ws) None Hne H1).
    replace (pos + 1 + 1)%nat with (pos + 2)%nat by lia.
    rewrite (randomWord_pick src _ characters None characters_nonempty H2).
    replace (pos + 2 + 1)%nat with (pos + 3)%nat by lia.
    rewrite (randomWord_pick src _ characters None characters_nonempty H3).
    replace (pos + 3 + 1)%nat with (pos + 4)%nat by lia.
    rewrite (randomWord_pick src _ characters None characters_nonempty H4).
    replace (pos + 4 + 1)%nat with (pos + 5)%nat by lia.
    rewrite (randomWord_pick src _ characters None characters_nonempty H5).
    replace (pos + 5 + 1)%nat with (pos + 6)%nat by lia.
    unfold strings_TrimPrefix. cbn [append strings_HasPrefix].
    rewrite Ascii.eqb_refl, HasPrefix_empty. cbn [andb String.length string_drop].
    rewrite !append_assoc_s. reflexivity.
Qed.

(** Readings 0, 1, 2, ... select the first two words and the characters
    "c", "d", "e", "f". *)
Lemma GenerateName_working_source_witness :
  GenerateName (fun k => Yields k) ["corn"; "flake"] 0
  = (Returned "corn-flake-cdef", 6%nat).
Proof.
  apply (GenerateName_working_source (fun k => Yields k) ["corn"; "flake"] 0).
  intros k Hk. reflexivity.
Defined.

Lemma randomWord_reads src pos array r pos' :
  randomWord src pos array 0 None = (r, pos') -> (pos' <= pos + 11)%nat.
Proof.
  intros E.
  pose proof (randomWord_inv src array 11 pos 0%Z None r pos' eq_refl E) as H.
  destruct r as [word | e].
  - destruct H as (n & v & Hp & Hn & _). lia.
  - destruct H as [[_ Hp] | [Hp _]]; lia.
Qed.

Lemma GenerateName_body_reads src words i text pos r pos' :
  GenerateName_body src words i text pos = (r, pos') ->
  (pos' <= pos + 11)%nat.
Proof.
  unfold GenerateName_body. intros H.
  destruct ((i <? 2)%Z && (0 <? List.length words)%nat).
  - destruct (randomWord src pos words 0 None) as [[word | e] p] eqn:E;
      apply randomWord_reads in E;
      [destruct ((i <? 3)%Z && (0 <? List.length words)%nat) |];
      inversion H; subst; exact E.
  - destruct (randomWord src pos characters 0 None) as [[word | e] p] eqn:E;
      apply randomWord_reads in E;
      [destruct ((i <? 3)%Z && (0 <? List.length words)%nat) |];
      inversion H; subst; exact E.
Qed.

Lemma successes_le src pos n : (successes src pos n <= n)%nat.
Proof.
  unfold successes.
  eapply Nat.le_trans; [apply filter_length_le | rewrite length_seq; lia].
Qed.

(** The loop of [GenerateName] after [n] iterations. *)
Lemma GenerateName_for_inv src words n : forall i text pos r pos',
  GenerateName_for src words n i text pos = (r, pos') ->
  match r with
  | Returned _ =>
      (pos <= pos' <= pos + 11 * n)%nat /\
      successes src pos (pos' - pos) = n
  | Panicked _ =>
      exists k, (pos <= k)%nat /\ pos' = (k + 11)%nat /\
        forall j, (j < 11)%nat -> fails (src (k + j)%nat) = true
  end.
Proof.
  induction n as [| n IH]; intros i text pos r pos' H; cbn [GenerateName_for] in H.
  - inversion H; subst. split; [lia |]. rewrite Nat.sub_diag. reflexivity.
  - destruct (GenerateName_body src words i text pos) as [[t | e] p] eqn:E.
    + pose proof (GenerateName_body_reads _ _ _ _ _ _ _ E) as Hr.
      apply GenerateName_body_inv in E. destruct E as (Hle & Hs & _).
      apply IH in H. destruct r as [t' | e'].
      * destruct H as [Hb Hn]. split; [lia |].
        rewrite (successes_split src pos p pos') by lia.
        rewrite Hs, Hn. reflexivity.
      * destruct H as (k & Hk & Hp & Hf). exists k.
        repeat split; [lia | exact Hp | exact Hf].
    + inversion H; subst. apply GenerateName_body_inv in E.
      destruct E as [Hp Hf]. exists pos. repeat split; [lia | exact Hp | exact Hf].
Qed.

(** X4: unless eleven readings in a row fail somewhere, [GenerateName]
    returns a slug, and it has then read the source at least 6 and at
    most 66 times. *)
Theorem GenerateName_returns : forall src words pos,
  (forall k, exists j, (j < 11)%nat /\ fails (src (k + j)%nat) = false) ->
  exists text pos',
    GenerateName src words pos = (Returned text, pos') /\
    (pos + 6 <= pos' <= pos + 66)%nat.
Proof.
  intros src words pos Hlive. unfold GenerateName.
  destruct (GenerateName_for src words 6 0 "" pos) as [[text | e] pos'] eqn:E;
    apply GenerateName_for_inv in E.
  - destruct E as [Hb Hs]. eexists. eexists. split; [reflexivity |].
    pose proof (successes_le src pos (pos' - pos)). lia.
  - exfalso. destruct E as (k & _ & _ & Hf).
    destruct (Hlive k) as (j & Hj & Hok).
    rewrite (Hf j Hj) in Hok. discriminate.
Qed.

(** A source that fails ten times before every success still serves. *)
Lemma GenerateName_returns_witness :
  exists text pos',
    GenerateName (fun k => if (k mod 11 =? 10)%nat then Yields k else Fails "EOF")
                 [] 0 = (Returned text, pos') /\
    (6 <= pos' <= 66)%nat.
Proof.
  apply (GenerateName_returns
           (fun k => if (k mod 11 =? 10)%nat then Yields k else Fails "EOF")
           [] 0).
  intros k. exists ((10 + 11 - k mod 11) mod 11)%nat.
  pose proof (Nat.mod_upper_bound k 11 ltac:(lia)) as Hk.
  split; [apply Nat.mod_upper_bound; lia |].
  replace ((k + (10 + 11 - k mod 11) mod 11) mod 11 =? 10)%nat with true;
    [reflexivity |].
  symmetry. apply Nat.eqb_eq.
  rewrite Nat.Div0.add_mod_idemp_r.
  rewrite (Nat.div_mod_eq k 11) at 1.
  replace (11 * (k / 11) + k mod 11 + (10 + 11 - k mod 11))%nat
    with (10 + (k / 11 + 1) * 11)%nat by lia.
  rewrite Nat.Div0.mod_add. reflexivity.
Defined.

(** ** More on [Store] *)

(** What a successful [Store] has done. *)
Lemma Store_success env now document w :
  snd (fst (Store env now document w)) = None ->
  exists name data,
    GenerateSafeName env (db w) = (name, None) /\
    fst (fst (Store env now document w)) = stored_document now name document /\
    strings_Contains (normalize_newlines (Content document)) (str1 NUL) = false /\
    FilterSpam env (stored_document now name document)
      (rendered_content env (stored_document now name document)) = None /\
    encrypt env (rendered_content env (stored_document now name document))
      (fst (scrypt_Key env name (time_Format env (time_Round_Second now))))
    = (data, None) /\
    db (snd (Store env now document w))
    = (db w ++ [stored_row env (stored_document now name document) data])%list /\
    pending (snd (Store env now document w)) = pending w.
Proof.
  unfold stored_document, stored_row, rendered_content, kept_syntax.
  store_enter env w; [intros H; discriminate H |].
  destruct (String.eqb (Custom document) "") eqn:Ec;
    destruct (String.eqb (Syntax document) "none") eqn:Es;
    store_simpl; store_branch env; intros Hok; try discriminate Hok.
  all: try match goal with
           | H : false = true |- _ => discriminate H
           | H : true = false |- _ => discriminate H
           end.
  all: exists name; eexists; cbn [apply_stmt].
  all: repeat match goal with
         | H : ?p = (_, _) |- context [fst ?p] => rewrite H
         | H : ?p = (_, _) |- context [?p] => rewrite H
         end; cbn [fst snd].
  all: repeat split; try reflexivity; try assumption.
Qed.

(** X5: [Store] writes all or nothing: when it returns an error the
    table is as it was before the call, also when the error is that of
    the INSERT itself; and it never leaves a goroutine behind. *)
Theorem Store_error_keeps_table : forall env now document w,
  let res := Store env now document w in
  pending (snd res) = pending w /\
  (snd (fst res) <> None -> db (snd res) = db w).
Proof.
  intros env now document w res. subst res.
  store_paths env w.
  all: split; [reflexivity | intros H; try reflexivity; contradiction].
Qed.

(** X6: a hit of the spam filter aborts [Store] with the error of the
    filter behind the prefix "spam: ", before any key is derived,
    anything is encrypted or any statement is issued; the table is as
    it was. *)
Theorem Store_spam_veto : forall env now document w name e,
  GenerateSafeName env (db w) = (name, None) ->
  strings_Contains (normalize_newlines (Content document)) (str1 NUL) = false ->
  FilterSpam env (stored_document now name document)
    (rendered_content env (stored_document now name document)) = Some e ->
  let res := Store env now document w in
  snd (fst res) = Some ("spam: " ++ e) /\
  db (snd res) = db w /\
  forall ev, In ev (trace (snd res)) -> crypto_or_statement ev = true ->
             In ev (trace w).
Proof.
  intros env now document w name e Hg Hnul Hspam res. subst res.
  unfold stored_document, rendered_content, kept_syntax in Hspam.
  unfold Store, Store_render, Store_persist, call_GenerateSafeName,
    call_Highlight, call_EscapeHTML, call_FilterSpam, call_scrypt,
    call_encrypt, db_Exec, run_stmt, Log, when_err, emit, bind, ret.
  cbn [db pending trace]. rewrite Hg. store_simpl. rewrite Hnul.
  document_simpl.
  destruct (String.eqb (Custom document) "") eqn:Ec;
    [destruct (String.eqb (Syntax document) "none") eqn:Es |];
    document_simpl;
    try (destruct (Highlight env _ _) as [h [he |]]; document_simpl).
  all: rewrite Hspam; cbn [fst snd db pending trace];
    (split; [reflexivity | split; [reflexivity |]]);
    intros ev Hin Hc; event_cases; auto; discriminate Hc.
Qed.

(** A filter that rejects everything. *)
Lemma Store_spam_veto_witness :
  let env := mkEnv (sha256_hex demo_env) (scrypt_Key demo_env) demo_encrypt
               demo_decrypt (Highlight demo_env) (EscapeHTML demo_env)
               (StripHTML demo_env) (fun _ _ => Some "too many links")
               (GenerateSafeName demo_env) demo_Parse demo_Format
               (query_fault demo_env) (exec_fault demo_env) false in
  let res := Store env demo_now
               (mkDocument "" "buy now" "" time_zero time_zero 0 "")
               (mkWorld [] [] []) in
  snd (fst res) = Some "spam: too many links" /\ db (snd res) = [].
Proof.
  intros env res.
  pose proof (Store_spam_veto env demo_now
                (mkDocument "" "buy now" "" time_zero time_zero 0 "")
                (mkWorld [] [] []) "corn-flake-ab12" "too many links"
                eq_refl eq_refl eq_refl) as H.
  cbv zeta in H. destruct H as (H1 & H2 & _). split; assumption.
Defined.


(** ** [Store] and [Request] together *)

Lemma select_row_appended h t row :
  select_row h t = None ->
  row_id row = h ->
  select_row h (t ++ [row])%list = Some row.
Proof.
  unfold select_row. intros Hn <-.
  induction t as [| a t IH]; cbn [app find] in *.
  - rewrite String.eqb_refl. reflexivity.
  - destruct (String.eqb (row_id a) (row_id row)); [discriminate | auto].
Qed.

(** [Request] when the key derivation fails. *)
Lemma Request_scrypt_error env now id raw w row key e :
  fetches env w id row ->
  scrypt_Key env id (salt_of env row) = (key, Some e) ->
  fst (Request env now id raw w) = (Document_zero, Some e).
Proof.
  intros [Hq Hs] Hk. unfold salt_of in Hk.
  unfold Request, db_QueryRow, go_db_Exec, call_scrypt, Log, run_stmt,
    emit, bind, ret.
  cbn [db pending trace]. rewrite Hq, Hs.
  cbn [Content ID Upload set_Content set_Custom set_Syntax set_Views
       set_Upload set_ID Document_zero Views Custom Syntax Expiration].
  destruct (go_eager env); cbn [db pending trace fst snd];
    rewrite Hk; reflexivity.
Qed.

(** The record a successful [Store] has written is the one a query for
    the new identifier finds, provided the identifier was free. *)
Lemma Store_success_fetches env now document w :
  snd (fst (Store env now document w)) = None ->
  query_fault env (db (snd (Store env now document w)))
    (sha256_hex env (ID (fst (fst (Store env now document w))))) = None ->
  select_row (sha256_hex env (ID (fst (fst (Store env now document w)))))
    (db w) = None ->
  exists name data,
    fst (fst (Store env now document w)) = stored_document now name document /\
    encrypt env (rendered_content env (stored_document now name document))
      (fst (scrypt_Key env name (time_Format env (time_Round_Second now))))
    = (data, None) /\
    fetches env (snd (Store env now document w)) name
      (stored_row env (stored_document now name document) data).
Proof.
  intros Hok Hq Hfree.
  destruct (Store_success env now document w Hok)
    as (name & data & _ & Hdoc & _ & _ & Henc & Hdb & _).
  rewrite Hdoc in Hq, Hfree. cbn [ID stored_document] in Hq, Hfree.
  exists name, data. split; [exact Hdoc |]. split; [exact Henc |].
  split; [exact Hq |].
  rewrite Hdb. apply select_row_appended; [exact Hfree | reflexivity].
Qed.

(** X7: what [Store] has written, [Request] reads back.  When encryption
    and decryption are inverse, the upload time survives formatting and
    parsing, no expiration is set and the new identifier was free, a
    read of the identifier [Store] assigned returns the document [Store]
    left behind the pointer, with the rendered content (stripped when
    raw) in place of the normalized text. *)
Theorem Store_then_Request : forall env now now' raw document w,
  (forall p k c, encrypt env p k = (c, None) -> decrypt env c k = (p, None)) ->
  time_Parse env (time_Format env (time_Round_Second now))
  = (time_Round_Second now, None) ->
  time_Round_Second (Expiration document) = time_zero ->
  let res := Store env now document w in
  let doc := fst (fst res) in
  snd (fst res) = None ->
  query_fault env (db (snd res)) (sha256_hex env (ID doc)) = None ->
  select_row (sha256_hex env (ID doc)) (db w) = None ->
  snd (scrypt_Key env (ID doc) (time_Format env (time_Round_Second now)))
  = None ->
  fst (Request env now' (ID doc) raw (snd res))
  = (returned_doc env raw (set_Content doc (rendered_content env doc)), None).
Proof.
  intros env now now' raw document w Hinv Htime Hexp res doc Hok Hq Hfree Hk.
  subst doc res.
  destruct (Store_success_fetches env now document w Hok Hq Hfree)
    as (name & data & Hdoc & Henc & Hf).
  rewrite Hdoc in *. cbn [ID stored_document] in *.
  destruct (scrypt_Key env name (time_Format env (time_Round_Second now)))
    as [key kerr] eqn:Ek.
  cbn [fst snd] in *. subst kerr.
  assert (Hsalt : salt_of env
                    (stored_row env (stored_document now name document) data)
                  = time_Format env (time_Round_Second now)).
  { unfold salt_of, stored_row, stored_document.
    cbn [row_upload NullString_String Upload]. rewrite Htime. reflexivity. }
  rewrite (Request_after_fetch env now' name raw _ _ key Hf)
    by (rewrite Hsalt; exact Ek).
  cbv zeta. cbn [row_content stored_row].
  rewrite (Hinv _ _ _ Henc).
  cbn [row_expiration stored_row stored_document Expiration].
  rewrite Hexp, Z.eqb_refl.
  unfold Request_expiration, Request_return, returned_doc, call_StripHTML,
    emit, bind, ret, doc_of_row, set_Content.
  cbn [row_syntax row_upload row_views row_custom stored_row stored_document
       NullString_String ID Content Syntax Upload Expiration Views Custom].
  rewrite Htime, Hexp. cbn [fst].
  destruct raw; reflexivity.
Qed.

Lemma HasPrefix_append a b : strings_HasPrefix (a ++ b) a = true.
Proof.
  induction a as [| x a IH]; [apply HasPrefix_empty |].
  cbn [append strings_HasPrefix]. rewrite Ascii.eqb_refl. exact IH.
Qed.

Lemma string_drop_append a b : string_drop (String.length a) (a ++ b) = b.
Proof. induction a as [| x a IH]; [reflexivity | exact IH]. Qed.

(** The cipher of the small environment decrypts what it encrypts. *)
Lemma demo_cipher_inverse p k c :
  encrypt demo_env p k = (c, None) -> decrypt demo_env c k = (p, None).
Proof.
  assert (R : demo_decrypt (fst (demo_encrypt p k)) k = (p, None)).
  { unfold demo_encrypt, demo_decrypt. cbn [fst].
    assert (E : "[" ++ k ++ "]" ++ p = ("[" ++ k ++ "]") ++ p)
      by (rewrite !append_assoc_s; reflexivity).
    rewrite E, HasPrefix_append, string_drop_append. reflexivity. }
  intros H. change (demo_encrypt p k = (c, None)) in H.
  rewrite H in R. exact R.
Qed.

(** "hello" stored and read back in the small environment. *)
Lemma Store_then_Request_witness :
  let res := Store demo_env (time_Unix 1577836800 0)
               (mkDocument "" "hello" "" time_zero time_zero 0 "")
               (mkWorld [] [] []) in
  fst (Request demo_env demo_now "corn-flake-ab12" false (snd res))
  = (mkDocument "corn-flake-ab12" ("hello" ++ str1 LF) ""
       (time_Unix 1577836800 0) time_zero 0 "", None).
Proof.
  exact (Store_then_Request demo_env (time_Unix 1577836800 0) demo_now false
           (mkDocument "" "hello" "" time_zero time_zero 0 "")
           (mkWorld [] [] []) demo_cipher_inverse eq_refl eq_refl eq_refl
           eq_refl eq_refl eq_refl).
Defined.

(** [Request] when the key derivation fails: the calls it has made. *)
Lemma Request_scrypt_error_trace env now id raw w row key e :
  fetches env w id row ->
  scrypt_Key env id (salt_of env row) = (key, Some e) ->
  trace (snd (Request env now id raw w))
  = (trace w ++ [EvQueryRow (sha256_hex env id);
                 EvGo (IncrementViews (sha256_hex env id));
                 EvScrypt id (salt_of env row); EvLog "error"])%list.
Proof.
  intros [Hq Hs] Hk. unfold salt_of in *.
  unfold Request, db_QueryRow, go_db_Exec, call_scrypt, Log, run_stmt,
    emit, bind, ret.
  cbn [db pending trace]. rewrite Hq, Hs.
  cbn [Content ID Upload set_Content set_Custom set_Syntax set_Views
       set_Upload set_ID Document_zero Views Custom Syntax Expiration].
  destruct (go_eager env); cbn [db pending trace fst snd];
    rewrite Hk; cbn [db pending trace fst snd]; flatten_trace; reflexivity.
Qed.

(** X8: [Store] and [Request] treat an error of the key derivation
    differently.  [Store] logs it and goes on: it calls [encrypt] with
    whatever key came back, and what it returns is the verdict of
    [encrypt] and of the INSERT, never the derivation error as such.
    [Request] returns the derivation error with the empty document, and
    does not call [decrypt]. *)
Theorem Store_key_error_goes_on : forall env now document w name key e,
  GenerateSafeName env (db w) = (name, None) ->
  strings_Contains (normalize_newlines (Content document)) (str1 NUL) = false ->
  FilterSpam env (stored_document now name document)
    (rendered_content env (stored_document now name document)) = None ->
  scrypt_Key env name (time_Format env (time_Round_Second now))
  = (key, Some e) ->
  let doc := stored_document now name document in
  let res := Store env now document w in
  (exists pre post,
     trace (snd res)
     = (trace w ++ pre
          ++ EvScrypt name (time_Format env (time_Round_Second now))
          :: EvLog "error"
          :: EvEncrypt (rendered_content env doc) key :: post)%list) /\
  snd (fst res)
  = (match encrypt env (rendered_content env doc) key with
     | (_, Some ee) => Some ee
     | (data, None) =>
         exec_fault env (db w) (Insert (stored_row env doc data))
     end) /\
  (forall now' id raw w' row key' e',
     fetches env w' id row ->
     scrypt_Key env id (salt_of env row) = (key', Some e') ->
     fst (Request env now' id raw w') = (Document_zero, Some e') /\
     forall c k, In (EvDecrypt c k) (trace (snd (Request env now' id raw w')))
                 -> In (EvDecrypt c k) (trace w')).
Proof.
  intros env now document w name key e Hg Hnul Hspam Hk doc res.
  subst res doc. split; [| split].
  - unfold stored_row, stored_document, rendered_content, kept_syntax in *.
    cbn [ID Content Syntax Upload Expiration Views Custom] in *.
    unfold Store, Store_render, Store_persist, call_GenerateSafeName,
      call_Highlight, call_EscapeHTML, call_FilterSpam, call_scrypt,
      call_encrypt, db_Exec, run_stmt, Log, when_err, emit, bind, ret.
    cbn [db pending trace]. rewrite Hg. store_simpl. rewrite Hnul.
    document_simpl.
    destruct (String.eqb (Custom document) "") eqn:Ec;
      [destruct (String.eqb (Syntax document) "none") eqn:Es |];
      document_simpl;
      try (destruct (Highlight env _ _) as [h [he |]] eqn:Eh;
           cbn [fst] in Hspam; document_simpl);
      rewrite Hspam; cbn [fst snd db pending trace];
      rewrite Hk; cbn [fst snd db pending trace];
      destruct (encrypt env _ key) as [d [ee |]];
      cbn [fst snd db pending trace];
      try destruct (exec_fault env (db w) _);
      cbn [fst snd db pending trace].
    all: flatten_trace.
    all: first
           [ exists []; eexists; cbn [app]; reflexivity
           | refine (ex_intro _ [_] _); eexists; cbn [app]; reflexivity
           | refine (ex_intro _ [_; _] _); eexists; cbn [app]; reflexivity
           | refine (ex_intro _ [_; _; _] _); eexists; cbn [app]; reflexivity
           | refine (ex_intro _ [_; _; _; _] _); eexists; cbn [app];
             reflexivity ].
  - unfold stored_row, stored_document, rendered_content, kept_syntax in *.
    cbn [ID Content Syntax Upload Expiration Views Custom] in *.
    unfold Store, Store_render, Store_persist, call_GenerateSafeName,
      call_Highlight, call_EscapeHTML, call_FilterSpam, call_scrypt,
      call_encrypt, db_Exec, run_stmt, Log, when_err, emit, bind, ret.
    cbn [db pending trace]. rewrite Hg. store_simpl. rewrite Hnul.
    document_simpl.
    destruct (String.eqb (Custom document) "") eqn:Ec;
      [destruct (String.eqb (Syntax document) "none") eqn:Es |];
      document_simpl;
      try (destruct (Highlight env _ _) as [h [he |]] eqn:Eh;
           cbn [fst] in Hspam; document_simpl);
      rewrite Hspam; cbn [fst snd db pending trace];
      rewrite Hk; cbn [fst snd db pending trace];
      destruct (encrypt env _ key) as [d [ee |]];
      cbn [fst snd db pending trace];
      try destruct (exec_fault env (db w) _);
      cbn [fst snd db pending trace]; reflexivity.
  - intros now' id raw w' row key' e' Hf Hk'. split.
    + eapply Request_scrypt_error; eassumption.
    + intros c k. rewrite (Request_scrypt_error_trace _ _ _ _ _ _ _ _ Hf Hk').
      rewrite in_app_iff. intros [H | H]; [exact H |].
      simpl in H. repeat destruct H as [H | H]; try discriminate H.
      contradiction.
Qed.

(** "hello" stored and a record read while the key derivation fails:
    [Store] reports the cipher's refusal of the missing key, [Request]
    the derivation error. *)
Lemma Store_key_error_goes_on_witness :
  let res := Store demo_env_bad_kdf (time_Unix 1577836800 0)
               (mkDocument "" "hello" "" time_zero time_zero 0 "")
               (mkWorld [] [] []) in
  snd (fst res) = Some "crypto/aes: invalid key size 0" /\
  In (EvLog "error") (trace (snd res)) /\
  fst (Request demo_env_bad_kdf demo_now "abc" false (demo_world None 0))
  = (Document_zero, Some "scrypt: parameters are invalid").
Proof.
  intros res.
  pose proof (Store_key_error_goes_on demo_env_bad_kdf
                (time_Unix 1577836800 0)
                (mkDocument "" "hello" "" time_zero time_zero 0 "")
                (mkWorld [] [] []) "corn-flake-ab12" ""
                "scrypt: parameters are invalid"
                eq_refl eq_refl eq_refl eq_refl) as H.
  cbv zeta in H. destruct H as ((pre & post & Htr) & Herr & Hreq).
  split; [exact Herr |]. split.
  - fold res in Htr. rewrite Htr.
    apply in_or_app. right. apply in_or_app. right. right. left. reflexivity.
  - exact (proj1 (Hreq demo_now "abc" false (demo_world None 0)
                    (demo_row None 0) ""
                    "scrypt: parameters are invalid"
                    (conj eq_refl eq_refl) eq_refl)).
Defined.

(** ** More on [Request] *)

Ltac request_simpl :=
  cbn [fst snd db pending trace Content Custom Syntax ID Upload Expiration
       Views set_Content set_Expiration set_Upload set_ID set_Syntax
       set_Views set_Custom Document_zero andb negb].

Ltac request_enter :=
  unfold Request, Request_expiration, Request_return, db_QueryRow,
    go_db_Exec, db_Exec, run_stmt, call_scrypt, call_decrypt,
    call_StripHTML, Log, when_err, emit, bind, ret;
  cbn [db pending trace].

(** Every path through [Request], one goal per path. *)
Ltac request_branch env :=
  repeat match goal with
    | |- context [query_fault env ?t ?k] =>
        destruct (query_fault env t k) eqn:?; request_simpl
    | |- context [select_row ?k ?t] =>
        destruct (select_row k t) eqn:?; request_simpl
    | |- context [go_eager env] =>
        destruct (go_eager env) eqn:?; request_simpl
    | |- context [exec_fault env ?t ?s] =>
        destruct (exec_fault env t s) eqn:?; request_simpl
    | |- context [row_expiration ?r] =>
        destruct (row_expiration r) eqn:?; request_simpl
    | |- context [time_Parse env ?s] =>
        destruct (time_Parse env s) as [? [? |]] eqn:?; request_simpl
    | |- context [scrypt_Key env ?a ?b] =>
        destruct (scrypt_Key env a b) as [? [? |]] eqn:?; request_simpl
    | |- context [decrypt env ?a ?b] =>
        destruct (decrypt env a b) as [? [? |]] eqn:?; request_simpl
    | |- context [if ?b then _ else _] =>
        destruct b eqn:?; request_simpl
    end.

(** X9: a read of an identifier that has no record returns the empty
    document and an error, changes nothing in the table and starts no
    goroutine; when the database itself did not fail, the error is
    "sql: no rows in result set" and nothing is logged: the query is the
    only call made. *)
Theorem Request_not_found : forall env now id raw w,
  select_row (sha256_hex env id) (db w) = None ->
  let res := Request env now id raw w in
  fst (fst res) = Document_zero /\
  snd (fst res) <> None /\
  db (snd res) = db w /\
  pending (snd res) = pending w /\
  (query_fault env (db w) (sha256_hex env id) = None ->
   snd (fst res) = Some "sql: no rows in result set" /\
   trace (snd res) = (trace w ++ [EvQueryRow (sha256_hex env id)])%list).
Proof.
  intros env now id raw w Hs res. subst res.
  request_enter. rewrite Hs.
  destruct (query_fault env (db w) (sha256_hex env id)) as [e |];
    request_simpl.
  - destruct (negb (String.eqb e "sql: no rows in result set"));
      request_simpl; repeat split; try discriminate.
  - repeat split; discriminate.
Qed.

(** Nothing is stored under "xyz". *)
Lemma Request_not_found_witness :
  fst (Request demo_env demo_now "xyz" false (demo_world None 0))
  = (Document_zero, Some "sql: no rows in result set").
Proof.
  pose proof (Request_not_found demo_env demo_now "xyz" false
                (demo_world None 0) eq_refl) as H.
  cbv zeta in H. destruct H as (H1 & _ & _ & _ & H5).
  destruct (H5 eq_refl) as [H6 _].
  rewrite (surjective_pairing (fst (Request demo_env demo_now "xyz" false
                                      (demo_world None 0)))).
  rewrite H1, H6. reflexivity.
Defined.

Lemma select_row_incremented h t :
  select_row h (apply_stmt (IncrementViews h) t)
  = option_map bump_views (select_row h t).
Proof.
  unfold select_row. cbn [apply_stmt].
  induction t as [| a t IH]; [reflexivity |].
  cbn [map find].
  destruct (String.eqb (row_id a) h) eqn:E.
  - cbn [bump_views row_id]. rewrite E. reflexivity.
  - rewrite E. exact IH.
Qed.

(** The table and the goroutines a read that found its record leaves:
    the update is started, and at most the DELETE for the raw identifier
    has run beside it. *)
Lemma Request_table env now id raw w row :
  fetches env w id row ->
  pending (snd (Request env now id raw w))
  = (if go_eager env then pending w
     else (pending w ++ [IncrementViews (sha256_hex env id)])%list) /\
  exists del : bool,
    db (snd (Request env now id raw w))
    = (if del then apply_stmt (Delete id) else fun t => t)
        (if go_eager env
         then fst (run_stmt env (IncrementViews (sha256_hex env id)) (db w))
         else db w).
Proof.
  intros [Hq Hs]. request_enter. rewrite Hq, Hs. request_simpl.
  destruct (go_eager env); request_simpl.
  all: request_branch env.
  all: split; [reflexivity |].
  all: first [exists false; reflexivity | exists true; reflexivity].
Qed.

(** X10: every read that finds the record counts, whatever becomes of
    it: once the goroutine has run (and the database accepted the
    update), the view count of the record is one higher, also when the
    read went on to fail on the key, the decryption or the expiration. *)
Theorem Request_counts_every_read : forall env now id raw w row,
  fetches env w id row ->
  pending w = [] ->
  sha256_hex env id <> id ->
  (forall t, exec_fault env t (IncrementViews (sha256_hex env id)) = None) ->
  select_row (sha256_hex env id)
    (db (settle env (snd (Request env now id raw w))))
  = Some (bump_views row).
Proof.
  intros env now id raw w row Hf Hp Hne Hinc.
  destruct (Request_table env now id raw w row Hf) as [Hpen [del Hdb]].
  destruct Hf as [_ Hs].
  assert (Hdel : forall t,
            select_row (sha256_hex env id)
              ((if del then apply_stmt (Delete id) else fun t => t) t)
            = select_row (sha256_hex env id) t).
  { intros t. destruct del; [| reflexivity].
    apply select_row_delete_other. exact Hne. }
  unfold settle. cbn [db]. rewrite Hpen, Hdb, Hp.
  destruct (go_eager env); cbn [app fold_left].
  - rewrite Hdel. unfold run_stmt. rewrite Hinc. cbn [fst].
    rewrite select_row_incremented, Hs. reflexivity.
  - unfold run_stmt at 1. rewrite Hinc. cbn [fst].
    rewrite select_row_incremented, Hdel, Hs. reflexivity.
Qed.

(** The expired record of "abc" is not returned, but the read counts. *)
Lemma Request_counts_every_read_witness :
  let res := Request demo_env demo_now "abc" false
               (demo_world (Some "2020-01-01 00:00:00") 4) in
  snd (fst res) = Some "the document has expired" /\
  select_row "sha256:abc" (db (settle demo_env (snd res)))
  = Some (demo_row (Some "2020-01-01 00:00:00") 5).
Proof.
  intros res. split; [reflexivity |].
  apply (Request_counts_every_read demo_env demo_now "abc" false
           (demo_world (Some "2020-01-01 00:00:00") 4)
           (demo_row (Some "2020-01-01 00:00:00") 4)
           (conj eq_refl eq_refl) eq_refl).
  - discriminate.
  - intros t. reflexivity.
Defined.

(** X11: a document past its hard expiration is refused but not
    removed: the read returns the expiration error and the empty
    document, and issues no statement beside the view-count update, so
    the expired record stays in the table. *)
Theorem Request_expired_kept : forall env now id raw w row key data s t,
  fetches env w id row ->
  decrypts env id row key data ->
  row_expiration row = Some s ->
  time_Parse env s = (t, None) ->
  time_Before t (time_Unix 0 1) = false ->
  time_Before t now = true ->
  pending w = [] ->
  let res := Request env now id raw w in
  fst res = (Document_zero, Some "the document has expired") /\
  trace (snd res) = trace (after_fetch env w id row key) /\
  select_row (sha256_hex env id) (db (settle env (snd res))) <> None.
Proof.
  intros env now id raw w row key data s t Hf [Hk Hd] He Hp Hv Hn Hpen res.
  subst res.
  rewrite (Request_after_fetch env now id raw w row key Hf Hk).
  cbv zeta. rewrite Hd, He. unfold Request_expiration. rewrite Hp.
  cbn [Expiration set_Expiration]. rewrite Hv, Hn.
  unfold ret. cbn [fst snd].
  split; [reflexivity |]. split; [reflexivity |].
  destruct Hf as [_ Hs].
  unfold settle, after_fetch. cbn [db pending]. rewrite Hpen.
  destruct (go_eager env); cbn [app fold_left].
  - change (match exec_fault env (db w) (IncrementViews (sha256_hex env id))
            with
            | Some e => (db w, Some e)
            | None => (apply_stmt (IncrementViews (sha256_hex env id)) (db w),
                       None)
            end)
      with (run_stmt env (IncrementViews (sha256_hex env id)) (db w)).
    apply (select_row_after_increment env _ _ row Hs).
  - apply (select_row_after_increment env _ _ row Hs).
Qed.

(** The record of "abc" that expired a year before the read. *)
Lemma Request_expired_kept_witness :
  let res := Request demo_env demo_now "abc" false
               (demo_world (Some "2020-01-01 00:00:00") 0) in
  fst res = (Document_zero, Some "the document has expired") /\
  select_row "sha256:abc" (db (settle demo_env (snd res))) <> None.
Proof.
  pose proof (Request_expired_kept demo_env demo_now "abc" false
                (demo_world (Some "2020-01-01 00:00:00") 0)
                (demo_row (Some "2020-01-01 00:00:00") 0)
                "abc@2020-01-01 00:00:00" "hello" "2020-01-01 00:00:00"
                (time_Unix 1577836800 0)
                (conj eq_refl eq_refl) (conj eq_refl eq_refl)
                eq_refl eq_refl eq_refl eq_refl eq_refl) as H.
  cbv zeta in H. destruct H as (H1 & _ & H3). split; assumption.
Defined.

(** X12: a stored expiration that parses to an instant after the epoch
    and not before [now] lets the read through: the document comes back
    with that expiration, the stored view count and the decrypted
    content.  The comparison is strict, so a document is still served at
    the very instant it expires. *)
Theorem Request_unexpired : forall env now id raw w row key data s t,
  fetches env w id row ->
  decrypts env id row key data ->
  row_expiration row = Some s ->
  time_Parse env s = (t, None) ->
  time_Before t (time_Unix 0 1) = false ->
  (now <= t)%Z ->
  fst (Request env now id raw w)
  = (returned_doc env raw (set_Expiration (doc_of_row env id row data) t),
     None).
Proof.
  intros env now id raw w row key data s t Hf [Hk Hd] He Hp Hv Hn.
  rewrite (Request_after_fetch env now id raw w row key Hf Hk).
  cbv zeta. rewrite Hd, He. unfold Request_expiration. rewrite Hp.
  cbn [Expiration set_Expiration]. rewrite Hv.
  replace (time_Before t now) with false
    by (symmetry; unfold time_Before; apply Z.ltb_ge; exact Hn).
  unfold Request_return, returned_doc, call_StripHTML, emit, bind, ret.
  destruct raw; reflexivity.
Qed.

(** The record of "abc" read at the instant it expires. *)
Lemma Request_unexpired_witness :
  fst (Request demo_env (time_Unix 1577836800 0) "abc" false
         (demo_world (Some "2020-01-01 00:00:00") 2))
  = (mkDocument "abc" "hello" "" (time_Unix 1577836800 0)
       (time_Unix 1577836800 0) 2 "", None).
Proof.
  exact (Request_unexpired demo_env (time_Unix 1577836800 0) "abc" false
           (demo_world (Some "2020-01-01 00:00:00") 2)
           (demo_row (Some "2020-01-01 00:00:00") 2)
           "abc@2020-01-01 00:00:00" "hello" "2020-01-01 00:00:00"
           (time_Unix 1577836800 0)
           (conj eq_refl eq_refl) (conj eq_refl eq_refl)
           eq_refl eq_refl eq_refl ltac:(vm_compute; discriminate)).
Defined.

(** X13: asking for the raw form changes nothing but the content of a
    successful read, which is passed through [StripHTML]: the error, the
    other fields, the table and the goroutines are those of the rendered
    read. *)
Theorem Request_raw_strips : forall env now id w,
  let rendered := Request env now id false w in
  let raw := Request env now id true w in
  snd (fst raw) = snd (fst rendered) /\
  fst (fst raw)
  = (match snd (fst rendered) with
     | None => set_Content (fst (fst rendered))
                 (StripHTML env (Content (fst (fst rendered))))
     | Some _ => fst (fst rendered)
     end) /\
  db (snd raw) = db (snd rendered) /\
  pending (snd raw) = pending (snd rendered).
Proof.
  intros env now id w rendered raw. subst rendered raw.
  request_enter. request_branch env.
  all: repeat split; reflexivity.
Qed.

(** What any read does to the table and the goroutines. *)
Lemma Request_effects env now id raw w :
  exists found del : bool,
    pending (snd (Request env now id raw w))
    = (if found && negb (go_eager env)
       then (pending w ++ [IncrementViews (sha256_hex env id)])%list
       else pending w) /\
    db (snd (Request env now id raw w))
    = (if del then apply_stmt (Delete id) else fun t => t)
        (if found && go_eager env
         then fst (run_stmt env (IncrementViews (sha256_hex env id)) (db w))
         else db w).
Proof.
  request_enter.
  destruct (query_fault env (db w) (sha256_hex env id)) as [e |];
    request_simpl;
    [exists false, false;
     destruct (negb (String.eqb e "sql: no rows in result set"));
     split; reflexivity |].
  destruct (select_row (sha256_hex env id) (db w)) as [row |];
    request_simpl; [| exists false, false; split; reflexivity].
  destruct (go_eager env); request_simpl.
  all: request_branch env.
  all: first [exists true, false; split; reflexivity
             | exists true, true; split; reflexivity].
Qed.

Lemma select_row_increment_other h' h t :
  h' <> h ->
  select_row h' (apply_stmt (IncrementViews h) t) = select_row h' t.
Proof.
  intros Hne. unfold select_row. cbn [apply_stmt].
  induction t as [| a t IH]; [reflexivity |].
  cbn [map find].
  destruct (String.eqb (row_id a) h) eqn:Eh; cbn [bump_views row_id].
  - apply String.eqb_eq in Eh.
    destruct (String.eqb (row_id a) h') eqn:Eh'; [| exact IH].
    apply String.eqb_eq in Eh'. congruence.
  - destruct (String.eqb (row_id a) h'); [reflexivity | exact IH].
Qed.

(** X14: a read touches no other document: whatever it returns, the
    record found under any key other than the digest of the identifier
    and the identifier itself is the same before the read and after it,
    goroutine included. *)
Theorem Request_leaves_other_records : forall env now id raw w h',
  h' <> sha256_hex env id ->
  h' <> id ->
  pending w = [] ->
  select_row h' (db (settle env (snd (Request env now id raw w))))
  = select_row h' (db w).
Proof.
  intros env now id raw w h' Hh Hid Hp.
  destruct (Request_effects env now id raw w) as (found & del & Hpen & Hdb).
  assert (Hdel : forall t,
            select_row h'
              ((if del then apply_stmt (Delete id) else fun t => t) t)
            = select_row h' t).
  { intros t. destruct del; [| reflexivity].
    apply select_row_delete_other. exact Hid. }
  assert (Hinc : forall t,
            select_row h'
              (fst (run_stmt env (IncrementViews (sha256_hex env id)) t))
            = select_row h' t).
  { intros t. unfold run_stmt.
    destruct (exec_fault env t (IncrementViews (sha256_hex env id)));
      cbn [fst]; [reflexivity |].
    apply select_row_increment_other. exact Hh. }
  unfold settle. cbn [db]. rewrite Hpen, Hdb, Hp.
  destruct found; destruct (go_eager env); cbn [andb negb app fold_left];
    rewrite ?Hinc, ?Hdel, ?Hinc; reflexivity.
Qed.

(** Reading "abc" leaves the record of another document alone. *)
Lemma Request_leaves_other_records_witness :
  let other := mkRow "sha256:def" "[def@2020-01-01 00:00:00]bye" "" ""
                     (Some "2020-01-01 00:00:00") None 7 in
  select_row "sha256:def"
    (db (settle demo_env
           (snd (Request demo_env demo_now "abc" false
                   (mkWorld [demo_row (Some "1970-01-01 00:00:00") 1; other]
                            [] [])))))
  = Some other.
Proof.
  intros other.
  rewrite (Request_leaves_other_records demo_env demo_now "abc" false
             (mkWorld [demo_row (Some "1970-01-01 00:00:00") 1; other] [] [])
             "sha256:def" ltac:(discriminate) ltac:(discriminate) eq_refl).
  reflexivity.
Defined.

(** ** The timestamps [Store] leaves *)

Lemma time_Round_Second_whole t :
  (time_Round_Second t mod nanos_per_second = 0)%Z /\
  (Z.abs (time_Round_Second t - t) * 2 <= nanos_per_second)%Z.
Proof.
  unfold time_Round_Second, nanos_per_second.
  pose proof (Z.mod_pos_bound t 1000000000 ltac:(lia)) as Hb.
  pose proof (Z.div_mod t 1000000000 ltac:(lia)) as Hd.
  destruct (t mod 1000000000 + t mod 1000000000 <? 1000000000)%Z eqn:E.
  - apply Z.ltb_lt in E. split; [| lia].
    replace (t - t mod 1000000000)%Z with (t / 1000000000 * 1000000000)%Z
      by lia.
    apply Z.mod_mul. lia.
  - apply Z.ltb_ge in E. split; [| lia].
    replace (t + 1000000000 - t mod 1000000000)%Z
      with ((t / 1000000000 + 1) * 1000000000)%Z by lia.
    apply Z.mod_mul. lia.
Qed.

(** The one key derivation of a successful [Store]. *)
Lemma Store_success_scrypt env now document w :
  snd (fst (Store env now document w)) = None ->
  exists name,
    GenerateSafeName env (db w) = (name, None) /\
    In (EvScrypt name (time_Format env (time_Round_Second now)))
       (trace (snd (Store env now document w))) /\
    forall p s,
      In (EvScrypt p s) (trace (snd (Store env now document w))) ->
      In (EvScrypt p s) (trace w) \/
      (p = name /\ s = time_Format env (time_Round_Second now)).
Proof.
  store_enter env w; [intros H; discriminate H |].
  destruct (String.eqb (Custom document) "") eqn:Ec;
    destruct (String.eqb (Syntax document) "none") eqn:Es;
    store_simpl; store_branch env; intros Hok; try discriminate Hok.
  all: exists name; split; [reflexivity |]; split;
    [repeat rewrite in_app_iff; cbn [In]; tauto |].
  all: intros qp qs HIn; repeat rewrite in_app_iff in HIn; cbn [In] in HIn.
  all: repeat match goal with
         | H : _ \/ _ |- _ => destruct H
         end;
    try contradiction; try discriminate;
    try (left; assumption);
    match goal with
    | H : EvScrypt _ _ = EvScrypt _ _ |- _ =>
        injection H as <- <-; right; split; reflexivity
    end.
Qed.

(** X15: the document a successful [Store] leaves behind the pointer
    carries whole seconds: its upload time is [now] rounded to the
    nearest second, at most half a second away, its expiration is
    rounded likewise, and the upload column of the new record is that
    upload time formatted.  That same string is the salt of the key
    derivation: [Store] calls [scrypt.Key] with the new identifier and
    the formatted upload time, it makes no other such call, and the
    content of the new record is what [encrypt] makes under the key so
    derived. *)
Theorem Store_rounds_timestamps : forall env now document w,
  let res := Store env now document w in
  let doc := fst (fst res) in
  snd (fst res) = None ->
  (Upload doc mod nanos_per_second = 0)%Z /\
  (Z.abs (Upload doc - now) * 2 <= nanos_per_second)%Z /\
  (Expiration doc mod nanos_per_second = 0)%Z /\
  (Z.abs (Expiration doc - Expiration document) * 2 <= nanos_per_second)%Z /\
  (exists row,
     db (snd res) = (db w ++ [row])%list /\
     row_upload row = Some (time_Format env (Upload doc)) /\
     row_content row
     = fst (encrypt env (rendered_content env doc)
              (fst (scrypt_Key env (ID doc)
                      (time_Format env (Upload doc)))))) /\
  In (EvScrypt (ID doc) (time_Format env (Upload doc))) (trace (snd res)) /\
  (forall password salt,
     In (EvScrypt password salt) (trace (snd res)) ->
     In (EvScrypt password salt) (trace w) \/
     (password = ID doc /\ salt = time_Format env (Upload doc))).
Proof.
  intros env now document w res doc Hok. subst doc res.
  destruct (Store_success_scrypt env now document w Hok)
    as (name' & Hg' & Hin & Honly).
  destruct (Store_success env now document w Hok)
    as (name & data & Hg & Hdoc & _ & _ & Henc & Hdb & _).
  rewrite Hg in Hg'. injection Hg' as <-.
  rewrite Hdoc, Hdb. cbn [Upload Expiration ID stored_document].
  destruct (time_Round_Second_whole now) as [H1 H2].
  destruct (time_Round_Second_whole (Expiration document)) as [H3 H4].
  repeat match goal with |- _ /\ _ => split end; try assumption.
  eexists. split; [reflexivity |]. split; [reflexivity |].
  cbn [row_content stored_row].
  change (mkDocument name (normalize_newlines (Content document))
            (kept_syntax document) (time_Round_Second now)
            (time_Round_Second (Expiration document)) (Views document)
            (Custom document))
    with (stored_document now name document).
  rewrite Henc. reflexivity.
Qed.

(** A document stored 0.6 s after a full second is stamped with the
    next second, and its key is derived with that second as the salt. *)
Lemma Store_rounds_timestamps_witness :
  let res := Store demo_env (time_Unix 1577836799 600000000)
               (mkDocument "" "hello" "" time_zero time_zero 0 "")
               (mkWorld [] [] []) in
  Upload (fst (fst res)) = time_Unix 1577836800 0 /\
  In (EvScrypt "corn-flake-ab12" "2020-01-01 00:00:00") (trace (snd res)).
Proof.
  intros res.
  pose proof (Store_rounds_timestamps demo_env (time_Unix 1577836799 600000000)
                (mkDocument "" "hello" "" time_zero time_zero 0 "")
                (mkWorld [] [] []) eq_refl) as H.
  cbv zeta in H. destruct H as (_ & _ & _ & _ & _ & Hin & _).
  split; [reflexivity | exact Hin].
Defined.

(** ** The configuration of the HTTP front end *)

Lemma string_take_append a b k :
  string_take (String.length a + k) (a ++ b) = a ++ string_take k b.
Proof.
  induction a as [| x a IH]; [reflexivity |].
  cbn [String.length Nat.add append string_take]. rewrite IH. reflexivity.
Qed.

Lemma string_drop_append_more a b k :
  string_drop (String.length a + k) (a ++ b) = string_drop k b.
Proof. induction a as [| x a IH]; [reflexivity | exact IH]. Qed.

Lemma string_take_all s : string_take (String.length s) s = s.
Proof.
  induction s as [| x s IH]; [reflexivity |].
  cbn [String.length string_take]. rewrite IH. reflexivity.
Qed.

Lemma without_append c a b :
  without c (a ++ b) = without c a && without c b.
Proof.
  unfold without. induction a as [| x a IH]; [reflexivity |].
  cbn [append all_bytes]. rewrite IH. apply andb_assoc.
Qed.

Lemma Index_first c a b :
  without c a = true ->
  strings_Index (a ++ String c b) (String c "") = Some (String.length a).
Proof.
  unfold without, str1. induction a as [| x a IH]; intros H.
  - cbn [append strings_Index strings_HasPrefix].
    rewrite Ascii.eqb_refl, HasPrefix_empty. reflexivity.
  - cbn [all_bytes] in H. apply andb_true_iff in H. destruct H as [Hx Ha].
    apply negb_true_iff in Hx.
    cbn [append strings_Index strings_HasPrefix]. rewrite Hx. cbn [andb].
    rewrite (IH Ha). reflexivity.
Qed.

Lemma Index_none c a :
  without c a = true -> strings_Index a (String c "") = None.
Proof.
  unfold without, str1. induction a as [| x a IH]; intros H; [reflexivity |].
  cbn [all_bytes] in H. apply andb_true_iff in H. destruct H as [Hx Ha].
  apply negb_true_iff in Hx.
  cbn [strings_Index strings_HasPrefix]. rewrite Hx. cbn [andb].
  rewrite (IH Ha). reflexivity.
Qed.

Lemma Index_found_prefix c : forall s m,
  strings_Index s (String c "") = Some m ->
  without c (string_take m s) = true.
Proof.
  unfold without, str1. induction s as [| x s IH]; intros m H.
  - cbn in H. discriminate.
  - cbn [strings_Index strings_HasPrefix] in H.
    rewrite HasPrefix_empty, andb_true_r in H.
    destruct (Ascii.eqb x c) eqn:Ex.
    + inversion H; subst m. reflexivity.
    + destruct (strings_Index s (String c "")) as [m' |] eqn:Em;
        [| discriminate].
      inversion H; subst m. cbn [string_take all_bytes].
      rewrite Ex. cbn [negb andb]. apply IH. reflexivity.
Qed.

Lemma Index_not_found c : forall s,
  strings_Index s (String c "") = None -> without c s = true.
Proof.
  unfold without, str1. induction s as [| x s IH]; intros H; [reflexivity |].
  cbn [strings_Index strings_HasPrefix] in H.
  rewrite HasPrefix_empty, andb_true_r in H.
  destruct (Ascii.eqb x c) eqn:Ex; [discriminate |].
  destruct (strings_Index s (String c "")) as [m' |] eqn:Em; [discriminate |].
  cbn [all_bytes]. rewrite Ex. cbn [negb andb]. apply IH. reflexivity.
Qed.

(** The first piece of a split at [c] has no [c]. *)
Lemma Split_first_without c s :
  without c (hd "" (strings_Split s (String c ""))) = true.
Proof.
  unfold strings_Split. destruct s as [| x s]; [reflexivity |].
  cbn [String.length genSplit].
  destruct (strings_Index (String x s) (String c "")) as [m |] eqn:E.
  - cbn [hd]. rewrite Nat.add_0_r. apply (Index_found_prefix c _ _ E).
  - cbn [hd]. apply (Index_not_found c _ E).
Qed.

Lemma all_bytes_take p : forall n s,
  all_bytes p s = true -> all_bytes p (string_take n s) = true.
Proof.
  induction n as [| n IH]; intros s H; [reflexivity |].
  destruct s as [| x s]; [reflexivity |].
  cbn [all_bytes string_take] in *. apply andb_true_iff in H.
  destruct H as [Hx Hs]. rewrite Hx, (IH s Hs). reflexivity.
Qed.

Lemma all_bytes_drop p : forall n s,
  all_bytes p s = true -> all_bytes p (string_drop n s) = true.
Proof.
  induction n as [| n IH]; intros s H; [exact H |].
  destruct s as [| x s]; [reflexivity |].
  cbn [all_bytes string_drop] in *. apply andb_true_iff in H.
  destruct H as [_ Hs]. exact (IH s Hs).
Qed.

Lemma TrimSuffix_head c x suffix :
  strings_TrimSuffix (String c x) suffix = "" \/
  strings_HasPrefix (strings_TrimSuffix (String c x) suffix) (String c "") = true.
Proof.
  unfold strings_TrimSuffix, str1.
  destruct (strings_HasSuffix (String c x) suffix).
  - destruct (String.length (String c x) - String.length suffix)%nat;
      [left; reflexivity | right].
    cbn [string_take strings_HasPrefix].
    rewrite Ascii.eqb_refl, HasPrefix_empty. reflexivity.
  - right. cbn [strings_HasPrefix].
    rewrite Ascii.eqb_refl, HasPrefix_empty. reflexivity.
Qed.

(** The domain [initializeConfig] derives is in lower case; the
    whitelist is taken over. *)
Lemma initializeConfig_domain abs initialConfig config :
  qbinHTTP.initializeConfig abs initialConfig = Returned config ->
  all_bytes (fun c => negb (is_upper c)) (qbinHTTP.domain config) = true /\
  qbinHTTP.CertWhitelist config = qbinHTTP.CertWhitelist initialConfig.
Proof.
  intros H. unfold qbinHTTP.initializeConfig in H.
  destruct (abs (qbinHTTP.FrontendPath initialConfig)) as [fp [e |]];
    [discriminate |].
  inversion H; subst config; clear H.
  cbn [qbinHTTP.domain qbinHTTP.CertWhitelist]. split; [| reflexivity].
  set (root := strings_ToLower
                 (strings_TrimSuffix (qbinHTTP.Root initialConfig) "/")).
  assert (Hlow : all_bytes (fun c => negb (is_upper c)) root = true)
    by apply ToLower_no_upper.
  assert (Hlast : all_bytes (fun c => negb (is_upper c))
                    (nth (List.length (strings_SplitN root "://" 2) - 1)
                         (strings_SplitN root "://" 2) "") = true).
  { unfold strings_SplitN. cbn [Nat.sub genSplit].
    destruct (strings_Index root "://") as [m |]; cbn [List.length Nat.sub nth].
    - apply all_bytes_drop. exact Hlow.
    - exact Hlow. }
  revert Hlast.
  generalize (nth (List.length (strings_SplitN root "://" 2) - 1)
                  (strings_SplitN root "://" 2) "").
  intros z Hz. unfold strings_Split.
  destruct z as [| x z]; [reflexivity |].
  cbn [String.length genSplit].
  destruct (strings_Index (String x z) "/") as [m |]; cbn [hd].
  - apply all_bytes_take. exact Hz.
  - exact Hz.
Qed.

(** X16: whatever root is configured, the path [initializeConfig]
    derives is empty or begins with a slash, and the domain it derives
    has no slash and no upper-case letter; the other settings are taken
    over, the root without one trailing slash. *)
Theorem initializeConfig_shape : forall abs initialConfig config,
  is_ascii (qbinHTTP.Root initialConfig) = true ->
  qbinHTTP.initializeConfig abs initialConfig = Returned config ->
  (qbinHTTP.path config = "" \/
   strings_HasPrefix (qbinHTTP.path config) "/" = true) /\
  without "/" (qbinHTTP.domain config) = true /\
  all_bytes (fun c => negb (is_upper c)) (qbinHTTP.domain config) = true /\
  qbinHTTP.Root config = strings_TrimSuffix (qbinHTTP.Root initialConfig) "/" /\
  qbinHTTP.FrontendPath config
  = fst (abs (qbinHTTP.FrontendPath initialConfig)) /\
  qbinHTTP.CertWhitelist config = qbinHTTP.CertWhitelist initialConfig.
Proof.
  intros abs initialConfig config _ H.
  destruct (initializeConfig_domain abs initialConfig config H) as [Hlow Hw].
  unfold qbinHTTP.initializeConfig in H.
  destruct (abs (qbinHTTP.FrontendPath initialConfig)) as [fp [e |]];
    [discriminate |].
  inversion H; subst config; clear H.
  cbn [qbinHTTP.path qbinHTTP.domain qbinHTTP.Root qbinHTTP.FrontendPath
       qbinHTTP.CertWhitelist fst] in *.
  repeat split.
  - apply (TrimSuffix_head "/").
  - apply (Split_first_without "/").
  - exact Hlow.
Qed.

(** A root with capitals, a folder and a trailing slash. *)
Lemma initializeConfig_shape_witness :
  strings_HasPrefix "/a/b" "/" = true /\ without "/" "example.org" = true.
Proof.
  pose proof (initializeConfig_shape demo_abs
                (demo_config "https://Example.org/a/b/")
                (qbinHTTP.mkConfiguration ":80" "none" "/srv/qbin/frontend"
                   "https://Example.org/a/b" "/a/b" "example.org"
                   ["cdn.example.org"] false "")
                eq_refl eq_refl) as (H1 & H2 & _).
  cbn [qbinHTTP.path qbinHTTP.domain] in H1, H2.
  destruct H1 as [H1 | H1]; [discriminate H1 |]. split; assumption.
Defined.

Lemma ToLower_append a b :
  strings_ToLower (a ++ b) = strings_ToLower a ++ strings_ToLower b.
Proof.
  induction a as [| x a IH]; [reflexivity |].
  cbn [append strings_ToLower]. rewrite IH. reflexivity.
Qed.

Lemma ToLower_length a : String.length (strings_ToLower a) = String.length a.
Proof.
  induction a as [| x a IH]; [reflexivity |].
  cbn [String.length strings_ToLower]. rewrite IH. reflexivity.
Qed.

Lemma byte_ToLower_slash c :
  Ascii.eqb (byte_ToLower c) "/" = Ascii.eqb c "/".
Proof. destruct c as [[] [] [] [] [] [] [] []]; reflexivity. Qed.

Lemma ToLower_without_slash a :
  without "/" (strings_ToLower a) = without "/" a.
Proof.
  unfold without. induction a as [| x a IH]; [reflexivity |].
  cbn [strings_ToLower all_bytes]. rewrite byte_ToLower_slash, IH.
  reflexivity.
Qed.

Lemma first_byte_without c s :
  without c s = true -> first_byte s <> Some c.
Proof.
  unfold without. destruct s as [| x s]; [discriminate |].
  cbn [all_bytes first_byte]. intros H E. inversion E; subst x.
  rewrite Ascii.eqb_refl in H. discriminate.
Qed.

(** The first occurrence of "://" behind a scheme without slash. *)
Lemma Index_scheme a b :
  without "/" a = true ->
  strings_Index (a ++ String ":" (String "/" (String "/" b))) "://"
  = Some (String.length a).
Proof.
  unfold without. induction a as [| x a IH]; intros H.
  - cbn [append strings_Index strings_HasPrefix].
    rewrite !Ascii.eqb_refl, HasPrefix_empty. reflexivity.
  - cbn [all_bytes] in H. apply andb_true_iff in H. destruct H as [Hx Ha].
    cbn [append strings_Index].
    replace (strings_HasPrefix
               (String x (a ++ String ":" (String "/" (String "/" b)))) "://")
      with false.
    + rewrite (IH Ha). reflexivity.
    + symmetry. cbn [strings_HasPrefix].
      destruct (Ascii.eqb x ":"); [| reflexivity]. cbn [andb].
      destruct a as [| y a].
      * reflexivity.
      * cbn [all_bytes] in Ha. apply andb_true_iff in Ha.
        destruct Ha as [Hy _]. apply negb_true_iff in Hy.
        cbn [append strings_HasPrefix]. rewrite Hy. reflexivity.
Qed.

Lemma last_byte_append a b :
  b <> "" -> last_byte (a ++ b) = last_byte b.
Proof.
  intros Hb. induction a as [| x a IH]; [reflexivity |].
  cbn [append]. destruct (a ++ b) as [| y r] eqn:E.
  - destruct a; [contradiction | discriminate].
  - exact IH.
Qed.

Lemma drop_last s c :
  last_byte s = Some c ->
  string_drop (String.length s - 1) s = str1 c.
Proof.
  induction s as [| x s IH]; [discriminate |].
  destruct s as [| y s'].
  - intros H. inversion H. reflexivity.
  - intros H. specialize (IH H).
    cbn [String.length Nat.sub] in *. rewrite Nat.sub_0_r in *.
    exact IH.
Qed.

Lemma TrimSuffix_keeps s c :
  last_byte s <> Some c -> strings_TrimSuffix s (String c "") = s.
Proof.
  intros H. unfold strings_TrimSuffix, strings_HasSuffix, str1.
  cbn [String.length].
  destruct (1 <=? String.length s)%nat eqn:El; [| reflexivity].
  destruct (last_byte s) as [d |] eqn:Ed.
  - rewrite (drop_last s d Ed). unfold str1.
    destruct (String.eqb (String d "") (String c "")) eqn:E; [| reflexivity].
    apply String.eqb_eq in E. inversion E; subst d. contradiction.
  - destruct s as [| x s]; [discriminate El |].
    exfalso. clear -Ed. induction s as [| y s IH] in x, Ed |- *;
      [discriminate | exact (IH y Ed)].
Qed.

Lemma last_byte_without c s :
  without c s = true -> last_byte s <> Some c.
Proof.
  unfold without. induction s as [| x s IH]; [discriminate |].
  cbn [all_bytes]. intros H. apply andb_true_iff in H. destruct H as [Hx Hs].
  destruct s as [| y s'].
  - intros E. inversion E; subst x. rewrite Ascii.eqb_refl in Hx. discriminate.
  - exact (IH Hs).
Qed.

Lemma append_nil_r (s : string) : s ++ "" = s.
Proof. induction s as [| x s IH]; [reflexivity | cbn; rewrite IH; reflexivity]. Qed.

Lemma Index_slash_head b : strings_Index (String "/" b) "/" = Some 0%nat.
Proof. cbn [strings_Index strings_HasPrefix]. rewrite HasPrefix_empty. reflexivity. Qed.

(** The pieces [strings.SplitAfterN(root, "/", 4)] cuts a root into. *)
Lemma SplitAfterN_root scheme host rest :
  without "/" scheme = true ->
  without "/" host = true ->
  strings_SplitAfterN
    (scheme ++ String ":" (String "/" (String "/" (host ++ rest)))) "/" 4
  = match rest with
    | String "/" p => [scheme ++ ":/"; "/"; host ++ "/"; p]
    | _ => (scheme ++ ":/") :: "/" :: genSplit 1 (host ++ rest) "/" 1
    end.
Proof.
  intros Hs Hh. unfold strings_SplitAfterN.
  change (4 - 1)%nat with 3%nat. change (String.length "/") with 1%nat.
  assert (E : scheme ++ String ":" (String "/" (String "/" (host ++ rest)))
              = (scheme ++ ":") ++ String "/" (String "/" (host ++ rest)))
    by (rewrite append_assoc_s; reflexivity).
  rewrite E. cbn [genSplit].
  rewrite (Index_first "/" (scheme ++ ":"))
    by (rewrite without_append, Hs; reflexivity).
  rewrite string_take_append, string_drop_append_more.
  cbn [string_take string_drop String.length]. rewrite Index_slash_head.
  cbn [Nat.add string_take string_drop String.length].
  replace ((scheme ++ ":") ++ "/") with (scheme ++ ":/")
    by (rewrite append_assoc_s; reflexivity).
  destruct rest as [| c p]; [reflexivity |].
  destruct (Ascii.eqb c "/") eqn:Ec.
  - apply Ascii.eqb_eq in Ec. subst c.
    rewrite (Index_first "/" host p Hh).
    rewrite string_take_append, string_drop_append_more.
    cbn [string_take string_drop String.length]. reflexivity.
  - destruct c as [[] [] [] [] [] [] [] []]; try reflexivity.
    discriminate Ec.
Qed.

(** The domain the two splits of the lower-case root arrive at. *)
Lemma root_domain scheme host rest :
  without "/" scheme = true ->
  without "/" host = true ->
  host <> "" ->
  rest = "" \/ first_byte rest = Some "/"%char ->
  let root := scheme ++ String ":" (String "/" (String "/" (host ++ rest))) in
  let rootParts := strings_SplitN (strings_ToLower root) "://" 2 in
  hd "" (strings_Split (nth (List.length rootParts - 1) rootParts "") "/")
  = strings_ToLower host.
Proof.
  intros Hs Hh Hne Hrest root rootParts. subst rootParts root.
  rewrite ToLower_append. cbn [strings_ToLower].
  change (byte_ToLower ":") with ":"%char.
  change (byte_ToLower "/") with "/"%char.
  rewrite ToLower_append.
  unfold strings_SplitN. cbn [Nat.sub genSplit].
  rewrite Index_scheme by (rewrite ToLower_without_slash; exact Hs).
  rewrite string_drop_append_more.
  cbn [String.length string_drop List.length Nat.sub nth].
  assert (Hlh : without "/" (strings_ToLower host) = true)
    by (rewrite ToLower_without_slash; exact Hh).
  assert (Hlen : exists n, String.length (strings_ToLower host
                                          ++ strings_ToLower rest) = S n).
  { destruct host as [| x host]; [contradiction |].
    cbn [strings_ToLower append String.length]. eexists. reflexivity. }
  destruct Hlen as [n Hn]. unfold strings_Split. rewrite Hn.
  cbn [genSplit].
  destruct Hrest as [-> | Hr].
  - cbn [strings_ToLower]. rewrite append_nil_r.
    rewrite (Index_none "/" _ Hlh). reflexivity.
  - destruct rest as [| c p]; [discriminate |].
    inversion Hr; subst c. cbn [strings_ToLower].
    change (byte_ToLower "/") with "/"%char.
    rewrite (Index_first "/" _ _ Hlh). cbn [hd].
    rewrite string_take_append. cbn [string_take]. apply append_nil_r.
Qed.

(** X17: a root of the form scheme://host or scheme://host/folder, the
    scheme and the host without slash, the folder neither beginning nor
    ending with one, is taken apart as meant: the domain is the host in
    lower case, the path is empty for the first form and the folder
    behind a slash for the second, and the root is kept as it is. *)
Theorem initializeConfig_parses : forall abs initialConfig fp scheme host,
  abs (qbinHTTP.FrontendPath initialConfig) = (fp, None) ->
  is_ascii (qbinHTTP.Root initialConfig) = true ->
  without "/" scheme = true ->
  without "/" host = true ->
  host <> "" ->
  let configured path :=
    Returned (qbinHTTP.mkConfiguration
                (qbinHTTP.ListenHTTP initialConfig)
                (qbinHTTP.ListenHTTPS initialConfig) fp
                (qbinHTTP.Root initialConfig) path (strings_ToLower host)
                (qbinHTTP.CertWhitelist initialConfig)
                (qbinHTTP.ForceRoot initialConfig)
                (qbinHTTP.Hsts initialConfig)) in
  (qbinHTTP.Root initialConfig = scheme ++ "://" ++ host ->
   qbinHTTP.initializeConfig abs initialConfig = configured "") /\
  (forall folder,
     folder <> "" ->
     first_byte folder <> Some "/"%char ->
     last_byte folder <> Some "/"%char ->
     qbinHTTP.Root initialConfig = scheme ++ "://" ++ host ++ "/" ++ folder ->
     qbinHTTP.initializeConfig abs initialConfig = configured ("/" ++ folder)).
Proof.
  intros abs initialConfig fp scheme host Habs _ Hs Hh Hne configured.
  subst configured. split.
  - intros HR. unfold qbinHTTP.initializeConfig. rewrite Habs, HR.
    assert (Hkeep : strings_TrimSuffix (scheme ++ "://" ++ host) "/"
                    = scheme ++ "://" ++ host).
    { apply (TrimSuffix_keeps _ "/").
      replace (scheme ++ "://" ++ host) with ((scheme ++ "://") ++ host)
        by (rewrite append_assoc_s; reflexivity).
      rewrite last_byte_append by exact Hne.
      apply last_byte_without. exact Hh. }
    rewrite Hkeep.
    pose proof (SplitAfterN_root scheme host "" Hs Hh) as Hparts.
    pose proof (root_domain scheme host "" Hs Hh Hne (or_introl eq_refl))
      as Hdom.
    cbv zeta in Hdom. rewrite append_nil_r in Hparts, Hdom.
    change (scheme ++ "://" ++ host)
      with (scheme ++ String ":" (String "/" (String "/" host))).
    rewrite Hparts, Hdom.
    cbn [genSplit]. rewrite (Index_none "/" _ Hh).
    reflexivity.
  - intros folder Hf Hfirst Hlast HR.
    unfold qbinHTTP.initializeConfig. rewrite Habs, HR.
    assert (Hkeep : strings_TrimSuffix (scheme ++ "://" ++ host ++ "/" ++ folder)
                      "/"
                    = scheme ++ "://" ++ host ++ "/" ++ folder).
    { apply (TrimSuffix_keeps _ "/").
      replace (scheme ++ "://" ++ host ++ "/" ++ folder)
        with ((scheme ++ "://" ++ host ++ "/") ++ folder)
        by (rewrite !append_assoc_s; reflexivity).
      rewrite last_byte_append by exact Hf. exact Hlast. }
    rewrite Hkeep.
    pose proof (SplitAfterN_root scheme host (String "/" folder) Hs Hh)
      as Hparts.
    pose proof (root_domain scheme host (String "/" folder) Hs Hh Hne
                  (or_intror eq_refl)) as Hdom.
    cbv zeta in Hdom. cbv iota in Hparts.
    change (scheme ++ "://" ++ host ++ "/" ++ folder)
      with (scheme ++ String ":" (String "/" (String "/"
              (host ++ String "/" folder)))).
    rewrite Hparts, Hdom.
    cbn [List.length Nat.ltb Nat.leb nth].
    assert (Hp : strings_TrimPrefix folder "/" = folder).
    { unfold strings_TrimPrefix. destruct folder as [| c f]; [reflexivity |].
      cbn [strings_HasPrefix].
      destruct (Ascii.eqb c "/") eqn:Ec; [| reflexivity].
      apply Ascii.eqb_eq in Ec. subst c. exfalso. apply Hfirst. reflexivity. }
    rewrite Hp.
    rewrite (TrimSuffix_keeps ("/" ++ folder) "/")
      by (change ("/" ++ folder) with (String "/" folder);
          destruct folder; [contradiction | exact Hlast]).
    reflexivity.
Qed.

(** The root https://Example.org/a/b. *)
Lemma initializeConfig_parses_witness :
  qbinHTTP.initializeConfig demo_abs (demo_config "https://Example.org/a/b")
  = Returned (qbinHTTP.mkConfiguration ":80" "none" "/srv/qbin/frontend"
                "https://Example.org/a/b" "/a/b" "example.org"
                ["cdn.example.org"] false "").
Proof.
  apply (proj2 (initializeConfig_parses demo_abs
                  (demo_config "https://Example.org/a/b")
                  "/srv/qbin/frontend" "https" "Example.org"
                  eq_refl eq_refl eq_refl eq_refl ltac:(discriminate))
               "a/b");
    try discriminate; reflexivity.
Defined.

(** X18: after [initializeConfig], the certificate policy accepts
    exactly the derived domain and the hosts of the whitelist, and
    refuses every other host with "TLS host not configured"; as the
    domain is in lower case and hosts are compared byte for byte, a host
    written with a capital letter is refused unless it is listed. *)
Theorem HostPolicy_hosts : forall abs initialConfig config host,
  is_ascii (qbinHTTP.Root initialConfig) = true ->
  qbinHTTP.initializeConfig abs initialConfig = Returned config ->
  (qbinHTTP.HostPolicy config host = None <->
   host = qbinHTTP.domain config \/
   In host (qbinHTTP.CertWhitelist initialConfig)) /\
  (qbinHTTP.HostPolicy config host <> None ->
   qbinHTTP.HostPolicy config host
   = Some ("TLS host not configured: " ++ host)) /\
  (all_bytes (fun c => negb (is_upper c)) host = false ->
   ~ In host (qbinHTTP.CertWhitelist initialConfig) ->
   qbinHTTP.HostPolicy config host <> None).
Proof.
  intros abs initialConfig config host _ H.
  destruct (initializeConfig_domain abs initialConfig config H) as [Hlow Hw].
  assert (Hiff : qbinHTTP.HostPolicy config host = None <->
                 host = qbinHTTP.domain config \/
                 In host (qbinHTTP.CertWhitelist initialConfig)).
  { unfold qbinHTTP.HostPolicy, qbinHTTP.whitelist. rewrite Hw.
    destruct (String.eqb host (qbinHTTP.domain config)) eqn:Ed;
      cbn [negb andb].
    - apply String.eqb_eq in Ed. split; [intros _; left; exact Ed | reflexivity].
    - apply String.eqb_neq in Ed.
      destruct (existsb (String.eqb host)
                  (qbinHTTP.CertWhitelist initialConfig)) eqn:Ew;
        cbn [Bool.eqb negb].
      + apply existsb_exists in Ew. destruct Ew as (x & Hx & Ex).
        apply String.eqb_eq in Ex. subst x.
        split; [intros _; right; exact Hx | reflexivity].
      + split; [discriminate |]. intros [E | E]; [contradiction |].
        exfalso.
        assert (existsb (String.eqb host)
                  (qbinHTTP.CertWhitelist initialConfig) = true).
        { apply existsb_exists. exists host. split; [exact E |].
          apply String.eqb_refl. }
        congruence. }
  split; [exact Hiff |]. split.
  - unfold qbinHTTP.HostPolicy.
    destruct (negb (String.eqb host (qbinHTTP.domain config))
              && negb (Bool.eqb (qbinHTTP.whitelist config host) true));
      [reflexivity | intros E; contradiction].
  - intros Hup Hnot E. apply Hiff in E. destruct E as [E | E];
      [| contradiction].
    subst host. rewrite Hlow in Hup. discriminate.
Qed.

(** With the root https://Example.org and cdn.example.org listed. *)
Lemma HostPolicy_hosts_witness :
  let config := qbinHTTP.mkConfiguration ":80" "none" "/srv/qbin/frontend"
                  "https://Example.org" "" "example.org"
                  ["cdn.example.org"] false "" in
  qbinHTTP.HostPolicy config "example.org" = None /\
  qbinHTTP.HostPolicy config "cdn.example.org" = None /\
  qbinHTTP.HostPolicy config "Example.org" <> None.
Proof.
  intros config.
  pose proof (fun host =>
                HostPolicy_hosts demo_abs (demo_config "https://Example.org")
                  config host eq_refl eq_refl) as H.
  split; [apply (H "example.org"); left; reflexivity |].
  split; [apply (H "cdn.example.org"); right; left; reflexivity |].
  apply (H "Example.org"); [reflexivity |].
  intros [E | []]. discriminate E.
Defined.
